(** * Blackjack: hand scoring and turn sequencing

    A shallow embedding of [blackjack.py]: the classes [Card], [Hand],
    [Deck], [BlackjackController] and [BlackjackView], followed by the
    properties of the scoring rule and of the turn logic.

    Python integers are unbounded, so scores are in [Z].  A Python [str] is
    the [string] of its UTF-8 bytes. *)

From Stdlib Require Import ZArith List String Ascii Bool Lia Permutation Arith.
Import ListNotations.
Open Scope string_scope.
Open Scope list_scope.
Open Scope Z_scope.

(** ** class Card *)

Record Card : Type := mkCard {
  value : string;
  suit : string;
  code : string
}.

(** ** class Hand *)

Record Hand : Type := mkHand {
  cards : list Card;
  score : Z
}.

(** [Hand.__init__] *)
Definition Hand_init : Hand := {| cards := []; score := 0 |}.

(** The dict literal of [calculate_hand_score], in the order it is written. *)
Definition score_dict : list (string * Z) :=
  [ ("2", 2); ("3", 3); ("4", 4); ("5", 5); ("6", 6); ("7", 7); ("8", 8);
    ("9", 9); ("10", 10); ("JACK", 10); ("QUEEN", 10); ("KING", 10) ].

(** [d[k]] guarded by [k in d]: [None] when the key is absent. *)
Fixpoint dict_get (d : list (string * Z)) (k : string) : option Z :=
  match d with
  | [] => None
  | (k', v) :: d' => if String.eqb k k' then Some v else dict_get d' k
  end.

(** The [for card in self.cards] loop, threading [new_score] and [count]. *)
Fixpoint scan_cards (cs : list Card) (new_score : Z) (count : nat) : Z * nat :=
  match cs with
  | [] => (new_score, count)
  | card :: rest =>
      let new_score :=
        match dict_get score_dict (value card) with
        | Some v => new_score + v
        | None => new_score
        end in
      let count := if String.eqb (value card) "ACE" then S count else count in
      scan_cards rest new_score count
  end.

(** The [while count] loop: one Ace per iteration. *)
Fixpoint ace_loop (count : nat) (new_score : Z) : Z :=
  match count with
  | O => new_score
  | S count' =>
      if 21 <? new_score + 11
      then ace_loop count' (new_score + 1)
      else ace_loop count' (new_score + 11)
  end.

(** [Hand.calculate_hand_score]: the cards stay, the score is overwritten. *)
Definition calculate_hand_score (h : Hand) : Hand :=
  let '(new_score, count) := scan_cards (cards h) 0 0 in
  let new_score :=
    match count with
    | O => new_score
    | S _ => ace_loop count new_score
    end in
  {| cards := cards h; score := new_score |}.

(** [Hand.add_card] *)
Definition add_card (h : Hand) (card : Card) : Hand :=
  calculate_hand_score {| cards := cards h ++ [card]; score := score h |}.

(** ** The scoring rule as the specification words it

    Step 1: point value of a non-Ace rank; step 2: the base; step 3: the Aces;
    step 4: each Ace valued against the running total. *)

Definition is_ace (c : Card) : bool := String.eqb (value c) "ACE".

Definition rank_points (rank : string) : Z :=
  if String.eqb rank "JACK" || String.eqb rank "QUEEN" || String.eqb rank "KING"
  then 10
  else if String.eqb rank "10" then 10
  else match rank with
       | String d EmptyString =>
           let n := Z.of_nat (nat_of_ascii d) - 48 in
           if (2 <=? n) && (n <=? 9) then n else 0
       | _ => 0
       end.

Definition base_total (cs : list Card) : Z :=
  fold_right Z.add 0 (map (fun c => rank_points (value c)) (filter (fun c => negb (is_ace c)) cs)).

Definition ace_value (running : Z) : Z :=
  if running + 11 <=? 21 then 11 else 1.

Definition value_aces (aces : list Card) (base : Z) : Z :=
  fold_left (fun running _ => running + ace_value running) aces base.

Definition hand_score (cs : list Card) : Z :=
  value_aces (filter is_ace cs) (base_total cs).

(** Auxiliary views of a hand used by the proofs: the points the dict gives
    to a rank (nothing for a rank it does not hold) and the number of Aces. *)

Definition dict_points (v : string) : Z :=
  match dict_get score_dict v with
  | Some x => x
  | None => 0
  end.

Definition sum_points (vs : list string) : Z :=
  fold_right (fun v acc => dict_points v + acc) 0 vs.

Definition count_aces (vs : list string) : nat :=
  List.length (filter (fun v => String.eqb v "ACE") vs).

(** ** class Deck

    The remote service is seen through what it returns: [pile] is the
    sequence of cards that successive [draw] calls will hand out, and
    [is_shuffled] is the flag kept on the Python object.  A remote shuffle
    happens before any draw, so it does not change [pile] as defined here.
    The service is one that answers every request: a request lost in the
    network, or a reply that is no deck, is not a run of this model. *)

Record Deck : Type := mkDeck {
  is_shuffled : bool;
  pile : list Card
}.

(** [Deck.shuffle] *)
Definition shuffle (d : Deck) : Deck := {| is_shuffled := true; pile := pile d |}.

(** ** The console and the world the controller runs in *)

Inductive event : Type :=
| Display (dealer_hand player_hand : Hand) (final : bool)
| Prompt
| InvalidCommand
| YouLost
| YouWon.

(** Ghost markers for source lines 192 and 193 of [players_turn]: the
    evaluation of [self.player.score > 22] (with the score read) and the
    entry into its body.  They are no output of the program. *)
Inductive probe : Type :=
| Reach192 (s : Z)
| Enter193.

Inductive exn : Type :=
| EOFError      (* [input] at the end of the console input *)
| IndexError.   (* [card_dict['cards'][0]] on a drawn-out deck *)

Record World : Type := mkWorld {
  deck : Deck;
  stdin : list string;
  player : Hand;
  dealer : Hand;
  stdout : list event;
  probes : list probe
}.

Definition set_deck (d : Deck) (w : World) : World :=
  mkWorld d (stdin w) (player w) (dealer w) (stdout w) (probes w).
Definition set_stdin (l : list string) (w : World) : World :=
  mkWorld (deck w) l (player w) (dealer w) (stdout w) (probes w).
Definition set_player (h : Hand) (w : World) : World :=
  mkWorld (deck w) (stdin w) h (dealer w) (stdout w) (probes w).
Definition set_dealer (h : Hand) (w : World) : World :=
  mkWorld (deck w) (stdin w) (player w) h (stdout w) (probes w).
Definition set_stdout (o : list event) (w : World) : World :=
  mkWorld (deck w) (stdin w) (player w) (dealer w) o (probes w).
Definition set_probes (p : list probe) (w : World) : World :=
  mkWorld (deck w) (stdin w) (player w) (dealer w) (stdout w) p.

(** ** State and exception monad *)

Inductive outcome (A : Type) : Type :=
| Ret (a : A)
| Raise (e : exn)
| OutOfFuel.
Arguments Ret {A} a.
Arguments Raise {A} e.
Arguments OutOfFuel {A}.

Definition M (A : Type) : Type := World -> outcome A * World.

Definition ret {A} (a : A) : M A := fun w => (Ret a, w).

Definition bind {A B} (m : M A) (k : A -> M B) : M B :=
  fun w =>
    match m w with
    | (Ret a, w') => k a w'
    | (Raise e, w') => (Raise e, w')
    | (OutOfFuel, w') => (OutOfFuel, w')
    end.

Definition out_of_fuel {A} : M A := fun w => (OutOfFuel, w).
Definition get {A} (f : World -> A) : M A := fun w => (Ret (f w), w).
Definition modify (f : World -> World) : M unit := fun w => (Ret tt, f w).

Declare Scope prog_scope.
Delimit Scope prog_scope with prog.
Notation "x <- c1 ;; c2" := (bind c1 (fun x => c2))
  (at level 100, c1 at next level, right associativity) : prog_scope.
Notation "c1 ;; c2" := (bind c1 (fun _ => c2))
  (at level 100, right associativity) : prog_scope.
Open Scope prog_scope.

Definition print (e : event) : M unit :=
  modify (fun w => set_stdout (stdout w ++ [e]) w).

Definition mark (p : probe) : M unit :=
  modify (fun w => set_probes (probes w ++ [p]) w).

(** [Deck.draw], on the controller's deck. *)
Definition draw : M Card :=
  fun w =>
    match pile (deck w) with
    | [] => (Raise IndexError, w)
    | c :: rest =>
        (Ret c, set_deck {| is_shuffled := is_shuffled (deck w); pile := rest |} w)
    end.

Definition player_add_card (c : Card) : M unit :=
  modify (fun w => set_player (add_card (player w) c) w).

Definition dealer_add_card (c : Card) : M unit :=
  modify (fun w => set_dealer (add_card (dealer w) c) w).

(** ** class BlackjackView *)

Definition upper_ascii (c : ascii) : ascii :=
  let n := nat_of_ascii c in
  if ((97 <=? n) && (n <=? 122))%nat then ascii_of_nat (n - 32) else c.

(** The UTF-8 bytes of U+017F, LATIN SMALL LETTER LONG S. *)
Definition long_s : string :=
  String (ascii_of_nat 197) (String (ascii_of_nat 191) EmptyString).

(** [str.upper], on the UTF-8 bytes of the text.  The letters a to z go to
    A to Z, and U+017F goes to "S": it is the one character outside ASCII
    whose upper-case form is a single ASCII letter tested for at line 210
    (its bytes 197, 191 occur in UTF-8 text only as this character).  Other
    characters outside ASCII are left as they are; the upper-case form Python
    gives a line that holds one of them is neither "H" nor "S", so the test
    of line 210 and the value returned at line 211 are those of Python on
    every line. *)
Fixpoint upper (s : string) : string :=
  match s with
  | EmptyString => EmptyString
  | String c s' =>
      match s' with
      | String c' s'' =>
          if Ascii.eqb c (ascii_of_nat 197) && Ascii.eqb c' (ascii_of_nat 191)
          then String "S" (upper s'')
          else String (upper_ascii c) (upper s')
      | EmptyString => String (upper_ascii c) EmptyString
      end
  end.

(** [x in l] for a list of strings *)
Fixpoint str_in (x : string) (l : list string) : bool :=
  match l with
  | [] => false
  | y :: l' => String.eqb x y || str_in x l'
  end.

(** [BlackjackView.display_state], called with the controller's two hands. *)
Definition display_state (final : bool) : M unit :=
  fun w => print (Display (dealer w) (player w) final) w.

(** The [while True] loop of [ask_next_move], over the lines still to be read. *)
Fixpoint read_move (lines : list string) (printed : list event)
  : outcome string * list string * list event :=
  match lines with
  | [] => (Raise EOFError, [], printed ++ [Prompt])
  | action :: rest =>
      let printed := printed ++ [Prompt] in
      if str_in (upper action) ["H"; "S"]
      then (Ret (upper action), rest, printed)
      else read_move rest (printed ++ [InvalidCommand])
  end.

(** [BlackjackView.ask_next_move] *)
Definition ask_next_move : M string :=
  display_state false ;;
  (fun w =>
     let '(r, rest, printed) := read_move (stdin w) (stdout w) in
     (r, set_stdout printed (set_stdin rest w))).

(** [BlackjackView.player_lost] *)
Definition player_lost : M unit := display_state true ;; print YouLost.

(** [BlackjackView.player_won] *)
Definition player_won : M unit := display_state true ;; print YouWon.

(** ** class BlackjackController *)

(** [check_shuffle] *)
Definition check_shuffle : M unit :=
  fun w =>
    if negb (is_shuffled (deck w))
    then (Ret tt, set_deck (shuffle (deck w)) w)
    else (Ret tt, w).

(** [for i in l: body(i)] *)
Fixpoint for_each (l : list nat) (body : nat -> M unit) : M unit :=
  match l with
  | [] => ret tt
  | i :: l' => body i ;; for_each l' body
  end.

(** [draw_first_cards] *)
Definition draw_first_cards : M Z :=
  for_each (seq 0 4)
    (fun i =>
       if (i mod 2 =? 0)%nat
       then (c <- draw ;; player_add_card c)
       else (c <- draw ;; dealer_add_card c)) ;;
  get (fun w => score (player w)).

(** [dealers_turn]; [fuel] bounds the iterations of the [while]. *)
Fixpoint dealers_loop (fuel : nat) : M bool :=
  match fuel with
  | O => out_of_fuel
  | S fuel' =>
      again <- get (fun w => score (dealer w) <=? score (player w)) ;;
      if again then
        c <- draw ;;
        dealer_add_card c ;;
        d <- get (fun w => score (dealer w)) ;;
        if d =? 21 then player_lost ;; ret true
        else dealers_loop fuel'
      else ret false
  end.

(** [dealers_loop] returns [true] for the [return] inside the loop. *)
Definition dealers_turn (fuel : nat) : M unit :=
  returned <- dealers_loop fuel ;;
  if returned then ret tt
  else
    d <- get (fun w => score (dealer w)) ;;
    if d <? 21 then player_lost
    else if 22 <? d then player_won
    else ret tt.

(** [players_turn]; Python's [True], [False] and [None] are [Some true],
    [Some false] and [None].  The [if]/[elif] block yields [Some r] when it
    executes [return r]. *)
Fixpoint players_turn (fuel : nat) : M (option bool) :=
  match fuel with
  | O => out_of_fuel
  | S fuel' =>
      cmd <- ask_next_move ;;
      returned <-
        (if String.eqb cmd "H" then
           c <- draw ;;
           player_add_card c ;;
           p <- get (fun w => score (player w)) ;;
           if 21 <? p then player_lost ;; ret (Some (Some true))
           else ret None
         else if String.eqb cmd "S" then ret (Some None)
         else ret None) ;;
      match returned with
      | Some r => ret r
      | None =>
          p <- get (fun w => score (player w)) ;;
          if p =? 21 then player_won ;; ret (Some false)
          else
            mark (Reach192 p) ;;
            if 22 <? p then mark Enter193 ;; player_lost ;; ret (Some false)
            else players_turn fuel'
      end
  end.

(** Every iteration of [players_turn] reads a line and every iteration of
    [dealers_turn] draws a card: the fuel below is never used up. *)
Definition players_fuel (w : World) : nat := S (List.length (stdin w)).
Definition dealers_fuel (w : World) : nat := S (List.length (pile (deck w))).

(** [BlackjackController.__init__], lines 127 to 132: what follows
    [lost = self.players_turn()]. *)
Definition after_players_turn (lost : option bool) : M unit :=
  match lost with
  | None =>
      d <- get (fun w => score (dealer w)) ;;
      if d =? 21 then player_lost
      else (fun w => dealers_turn (dealers_fuel w) w)
  | Some _ => ret tt
  end.

(** [BlackjackController.__init__] *)
Definition controller_init : M unit :=
  check_shuffle ;;
  modify (set_player Hand_init) ;;
  modify (set_dealer Hand_init) ;;
  s <- draw_first_cards ;;
  if s =? 21 then player_won
  else
    lost <- (fun w => players_turn (players_fuel w) w) ;;
    after_players_turn lost.

(** A game: the controller constructed on a deck, with the given console input. *)
Definition boot (d : Deck) (lines : list string) : World :=
  {| deck := d; stdin := lines; player := Hand_init; dealer := Hand_init;
     stdout := []; probes := [] |}.

Definition play (d : Deck) (lines : list string) : outcome unit * World :=
  controller_init (boot d lines).

(** Number of outcome reports on the console. *)
Definition is_report (e : event) : bool :=
  match e with
  | YouLost | YouWon => true
  | _ => false
  end.

Definition reports (o : list event) : list event := filter is_report o.

(** ** Vocabulary of the statements *)

(** A console line that is "H" or "S" up to case, as Python compares text
    without regard to case: "H", "h", "S", "s", and the long s U+017F, whose
    upper-case form and whose case-folded form are those of "S". *)
Definition is_move (s : string) : bool := str_in s ["H"; "h"; "S"; "s"; long_s].

(** The world after [view.player_lost] ([e] is [YouLost]) or
    [view.player_won] ([e] is [YouWon]). *)
Definition report (e : event) (w : World) : World :=
  set_stdout ((stdout w ++ [Display (dealer w) (player w) true]) ++ [e]) w.

(** The world after a successful [draw] that leaves [rest] on the pile. *)
Definition take_card (rest : list Card) (w : World) : World :=
  set_deck {| is_shuffled := is_shuffled (deck w); pile := rest |} w.

(** The world after [self.player.add_card(self.deck.draw())], and the same
    for the dealer, when the drawn card is [c]. *)
Definition hit_player (c : Card) (rest : list Card) (w : World) : World :=
  let w1 := take_card rest w in set_player (add_card (player w1) c) w1.

Definition hit_dealer (c : Card) (rest : list Card) (w : World) : World :=
  let w1 := take_card rest w in set_dealer (add_card (dealer w1) c) w1.

(** The world after the ghost marker of line 192. *)
Definition checked192 (w : World) : World :=
  set_probes (probes w ++ [Reach192 (score (player w))]) w.

(** What one call of [ask_next_move] prints when it rejects the lines [pre]
    and then reads a line it accepts. *)
Definition asking (w : World) (pre : list string) : list event :=
  Display (dealer w) (player w) false
  :: flat_map (fun _ => [Prompt; InvalidCommand]) pre ++ [Prompt].

(** The world after one call of [ask_next_move] that rejects [pre] and
    leaves [rest] unread. *)
Definition asked (pre rest : list string) (w : World) : World :=
  set_stdout (stdout w ++ asking w pre) (set_stdin rest w).

(** The world inside the body of line 192's [if], after both ghost markers. *)
Definition entered193 (w : World) : World :=
  let w1 := checked192 w in set_probes (probes w1 ++ [Enter193]) w1.

(** The world of a game right after the four cards [c1], [c2], [c3], [c4]
    have been dealt from a pile that continues with [rest]. *)
Definition dealt (c1 c2 c3 c4 : Card) (rest : list Card) (lines : list string)
  : World :=
  {| deck := {| is_shuffled := true; pile := rest |};
     stdin := lines;
     player := add_card (add_card Hand_init c1) c3;
     dealer := add_card (add_card Hand_init c2) c4;
     stdout := [];
     probes := [] |}.

(** What the ghost markers may show if line 193 is dead code. *)
Definition probe_ok (p : probe) : Prop :=
  match p with
  | Reach192 s => s < 21
  | Enter193 => False
  end.

Definition is_enter193 (p : probe) : bool :=
  match p with
  | Enter193 => true
  | Reach192 _ => false
  end.

(** Sample cards and tables for the worked examples. *)
Definition a_card (v : string) : Card := {| value := v; suit := "SPADES"; code := v |}.

Definition hand_of (vs : list string) : Hand :=
  fold_left add_card (map a_card vs) Hand_init.

Definition table (p d rest : list string) (lines : list string) : World :=
  {| deck := {| is_shuffled := true; pile := map a_card rest |};
     stdin := lines;
     player := hand_of p;
     dealer := hand_of d;
     stdout := [];
     probes := [] |}.

(** A deck on which the dealer draws to exactly 22. *)
Definition dealer_22_deck : Deck :=
  {| is_shuffled := false;
     pile := [ mkCard "10" "SPADES" "0S"; mkCard "10" "HEARTS" "0H";
               mkCard "9" "CLUBS" "9C"; mkCard "6" "DIAMONDS" "6D";
               mkCard "6" "SPADES" "6S" ] |}.

(** A hand whose stored score is the scoring rule over its cards. *)
Definition fresh (h : Hand) : Prop := score h = hand_score (cards h).

Definition shown_fresh (e : event) : Prop :=
  match e with
  | Display d p _ => fresh d /\ fresh p
  | _ => True
  end.

(** Both hands fresh, and fresh in every state that was shown. *)
Definition all_fresh (w : World) : Prop :=
  fresh (player w) /\ fresh (dealer w) /\ Forall shown_fresh (stdout w).

(** ** The rest of the view and of the vocabulary *)

(** [Card.__repr__] *)
Definition Card_repr (c : Card) : string := code c.

(** [sep.join(l)] *)
Fixpoint join (sep : string) (l : list string) : string :=
  match l with
  | [] => EmptyString
  | [x] => x
  | x :: l' => String.append x (String.append sep (join sep l'))
  end.

(** The four values [display_state] computes from the state, lines 239 to
    246, before it formats and prints them.  The dealer's score is an integer
    or the text "??"; the dealer's cards are the list itself or the text built
    from all cards but the last. *)
Record Shown : Type := mkShown {
  dealer_score_shown : Z + string;
  dealer_cards_shown : list Card + string;
  player_score_shown : Z;
  player_cards_shown : list Card
}.

Definition display_fields (d p : Hand) (final : bool) : Shown :=
  let dealer_score := if final then inl (score d) else inr "??" in
  let dealer_cards :=
    if negb final
    then
      let dealer_cards_hidden_last := map Card_repr (removelast (cards d)) ++ ["??"] in
      inr (String.append "[" (String.append (join "," dealer_cards_hidden_last) "]"))
    else inl (cards d) in
  {| dealer_score_shown := dealer_score;
     dealer_cards_shown := dealer_cards;
     player_score_shown := score p;
     player_cards_shown := cards p |}.

(** The thirteen ranks of the card service. *)
Definition standard_rank (v : string) : bool :=
  str_in v ["ACE"; "2"; "3"; "4"; "5"; "6"; "7"; "8"; "9"; "10";
            "JACK"; "QUEEN"; "KING"].

(** A pile dealt out in turn, first to the player: the two hands it gives. *)
Fixpoint alternate (l : list Card) : list Card * list Card :=
  match l with
  | [] => ([], [])
  | c :: r => (c :: snd (alternate r), fst (alternate r))
  end.

(** The reports a game may have made, against the final scores [p] of the
    player and [d] of the dealer. *)
Definition outcome_fits (o : list event) (p d : Z) : Prop :=
  match o with
  | [] => True
  | [YouWon] => p = 21 \/ (p < 21 /\ 22 < d)
  | [YouLost] => 21 < p \/ (p < 21 /\ (d = 21 \/ p < d < 21))
  | _ => False
  end.

(** [BlackjackController.__init__] from line 126 on: the player's turn and
    what follows it. *)
Definition both_turns : M unit :=
  bind (fun w => players_turn (players_fuel w) w) after_players_turn.

(** No prompt for a move shows a player at 21 or more. *)
Definition prompt_below_21 (e : event) : Prop :=
  match e with
  | Display _ p false => score p < 21
  | _ => True
  end.

(** * Properties *)

(** ** Scoring *)

Section Scoring.

Lemma rank_points_single (d : ascii) :
  rank_points (String d EmptyString) = dict_points (String d EmptyString).
Proof.
  destruct d as [[] [] [] [] [] [] [] []]; vm_compute; reflexivity.
Qed.

Lemma eqb_longer_false (c1 c2 : ascii) (r : string) (d : ascii) :
  String.eqb (String c1 (String c2 r)) (String d EmptyString) = false.
Proof.
  simpl. destruct (Ascii.eqb c1 d); reflexivity.
Qed.

(** The dict and the two rules of step 1 give every rank the same points. *)
Lemma rank_points_dict (r : string) : rank_points r = dict_points r.
Proof.
  destruct r as [|c1 [|c2 r]].
  - reflexivity.
  - apply rank_points_single.
  - unfold dict_points, score_dict, dict_get.
    rewrite !eqb_longer_false.
    unfold rank_points.
    set (s := String c1 (String c2 r)).
    destruct (String.eqb_spec s "10") as [E10|N10].
    + rewrite E10. reflexivity.
    + destruct (String.eqb s "JACK"), (String.eqb s "QUEEN"), (String.eqb s "KING");
        reflexivity.
Qed.

Lemma dict_points_ace : dict_points "ACE" = 0.
Proof. reflexivity. Qed.

Lemma sum_points_cons (v : string) (vs : list string) :
  sum_points (v :: vs) = dict_points v + sum_points vs.
Proof. reflexivity. Qed.

Lemma count_aces_cons (v : string) (vs : list string) :
  count_aces (v :: vs) =
  ((if String.eqb v "ACE" then 1 else 0) + count_aces vs)%nat.
Proof.
  unfold count_aces. simpl. destruct (String.eqb v "ACE"); reflexivity.
Qed.

Lemma scan_cards_cons (c : Card) (cs : list Card) (s : Z) (n : nat) :
  scan_cards (c :: cs) s n =
  scan_cards cs
    (match dict_get score_dict (value c) with Some v => s + v | None => s end)
    (if String.eqb (value c) "ACE" then S n else n).
Proof. reflexivity. Qed.

Lemma scan_cards_sum (cs : list Card) (s : Z) (n : nat) :
  scan_cards cs s n =
  (s + sum_points (map value cs), (n + count_aces (map value cs))%nat).
Proof.
  revert s n. induction cs as [|c cs IH]; intros s n.
  - simpl. f_equal; [lia | unfold count_aces; simpl; lia].
  - rewrite scan_cards_cons, IH. simpl map.
    rewrite sum_points_cons, count_aces_cons. unfold dict_points at 1.
    destruct (dict_get score_dict (value c)), (String.eqb (value c) "ACE");
      f_equal; lia.
Qed.

Lemma ace_loop_step (s : Z) :
  (if 21 <? s + 11 then s + 1 else s + 11) = s + ace_value s.
Proof.
  unfold ace_value.
  destruct (Z.ltb_spec 21 (s + 11)), (Z.leb_spec (s + 11) 21); lia.
Qed.

Lemma ace_loop_value_aces (aces : list Card) (s : Z) :
  ace_loop (List.length aces) s = value_aces aces s.
Proof.
  revert s. induction aces as [|a aces IH]; intros s.
  - reflexivity.
  - unfold value_aces. simpl. rewrite <- ace_loop_step.
    destruct (21 <? s + 11); apply IH.
Qed.

Lemma count_aces_filter (cs : list Card) :
  count_aces (map value cs) = List.length (filter is_ace cs).
Proof.
  unfold count_aces, is_ace.
  induction cs as [|c cs IH]; simpl; [reflexivity|].
  destruct (String.eqb (value c) "ACE"); simpl; now rewrite IH.
Qed.

Lemma sum_points_base (cs : list Card) :
  sum_points (map value cs) = base_total cs.
Proof.
  unfold base_total, is_ace.
  induction cs as [|c cs IH]; simpl; [reflexivity|].
  destruct (String.eqb_spec (value c) "ACE") as [E|N]; simpl.
  - rewrite E, dict_points_ace, IH. reflexivity.
  - now rewrite rank_points_dict, IH.
Qed.

(** The score in terms of the two views of the hand. *)
Lemma score_by_counts (h : Hand) :
  score (calculate_hand_score h) =
  ace_loop (count_aces (map value (cards h))) (sum_points (map value (cards h))).
Proof.
  unfold calculate_hand_score. rewrite scan_cards_sum. simpl.
  destruct (count_aces (map value (cards h))); reflexivity.
Qed.

Lemma calculate_hand_score_cards (h : Hand) :
  cards (calculate_hand_score h) = cards h.
Proof.
  unfold calculate_hand_score.
  destruct (scan_cards (cards h) 0 0). reflexivity.
Qed.

Lemma calculate_hand_score_spec (h : Hand) :
  score (calculate_hand_score h) = hand_score (cards h).
Proof.
  rewrite score_by_counts, count_aces_filter, sum_points_base.
  apply ace_loop_value_aces.
Qed.

Lemma sum_points_perm (vs vs' : list string) :
  Permutation vs vs' -> sum_points vs = sum_points vs'.
Proof.
  induction 1 as [|v l l' _ IH|v v' l|l l' l'' _ IH1 _ IH2].
  - reflexivity.
  - rewrite !sum_points_cons. now rewrite IH.
  - rewrite !sum_points_cons. lia.
  - now rewrite IH1.
Qed.

Lemma count_aces_perm (vs vs' : list string) :
  Permutation vs vs' -> count_aces vs = count_aces vs'.
Proof.
  induction 1 as [|v l l' _ IH|v v' l|l l' l'' _ IH1 _ IH2].
  - reflexivity.
  - rewrite !count_aces_cons. now rewrite IH.
  - rewrite !count_aces_cons. lia.
  - now rewrite IH1.
Qed.

(** C1. [calculate_hand_score] keeps the cards and sets [score] to the rule
    of the specification: the points of the non-Ace cards ("2".."10" at
    their number, "JACK", "QUEEN" and "KING" at 10) summed into a base, then
    one Ace at a time worth 11 when the running total plus 11 is at most 21
    and 1 otherwise.  A hand of exactly two Aces scores 12. *)
Theorem calculate_hand_score_greedy_aces :
  (forall h : Hand,
      cards (calculate_hand_score h) = cards h /\
      score (calculate_hand_score h) =
        fold_left (fun running _ => running + (if running + 11 <=? 21 then 11 else 1))
                  (filter is_ace (cards h)) (base_total (cards h)) /\
      score (calculate_hand_score h) = hand_score (cards h)) /\
  (forall (a1 a2 : Card) (stale : Z),
      value a1 = "ACE" -> value a2 = "ACE" ->
      score (calculate_hand_score {| cards := [a1; a2]; score := stale |}) = 12).
Proof.
  split.
  - intros h. split; [apply calculate_hand_score_cards|].
    split; apply calculate_hand_score_spec.
  - intros a1 a2 stale E1 E2.
    rewrite calculate_hand_score_spec. simpl cards.
    unfold hand_score, base_total, is_ace. simpl.
    rewrite E1, E2. reflexivity.
Qed.

Lemma calculate_hand_score_greedy_aces_witness :
  score (calculate_hand_score
           {| cards := [mkCard "ACE" "SPADES" "AS"; mkCard "ACE" "HEARTS" "AH"];
              score := 0 |}) = 12.
Proof.
  apply (proj2 calculate_hand_score_greedy_aces); reflexivity.
Defined.

(** [add_card] appends the card and leaves in [score] the scoring rule
    recomputed over the whole new card sequence, whatever the score field
    held before. *)
Lemma add_card_score (h : Hand) (c : Card) :
  cards (add_card h c) = cards h ++ [c] /\
  score (add_card h c) = hand_score (cards h ++ [c]).
Proof.
  unfold add_card. split.
  - now rewrite calculate_hand_score_cards.
  - now rewrite calculate_hand_score_spec.
Qed.

(** C10. The score is a function of the multiset of the card values: two
    hands whose values are a permutation of each other, and so two hands
    holding the same cards in another order, have the same score.  The
    score is the Ace loop run from the sum of the dict points, on the
    number of Aces, wherever the Aces stand in the hand. *)
Theorem score_order_independent :
  forall h1 h2 : Hand,
    (Permutation (map value (cards h1)) (map value (cards h2)) ->
     score (calculate_hand_score h1) = score (calculate_hand_score h2)) /\
    (Permutation (cards h1) (cards h2) ->
     score (calculate_hand_score h1) = score (calculate_hand_score h2)) /\
    score (calculate_hand_score h1) =
      ace_loop (count_aces (map value (cards h1)))
               (sum_points (map value (cards h1))).
Proof.
  intros h1 h2.
  assert (V : Permutation (map value (cards h1)) (map value (cards h2)) ->
              score (calculate_hand_score h1) = score (calculate_hand_score h2)).
  { intros P. rewrite !score_by_counts.
    now rewrite (sum_points_perm _ _ P), (count_aces_perm _ _ P). }
  split; [exact V|]. split.
  - intros P. apply V. now apply Permutation_map.
  - apply score_by_counts.
Qed.

Lemma score_order_independent_witness :
  score (calculate_hand_score
           {| cards := [mkCard "ACE" "SPADES" "AS"; mkCard "KING" "HEARTS" "KH";
                        mkCard "5" "CLUBS" "5C"];
              score := 0 |}) =
  score (calculate_hand_score
           {| cards := [mkCard "5" "DIAMONDS" "5D"; mkCard "ACE" "CLUBS" "AC";
                        mkCard "KING" "SPADES" "KS"];
              score := 7 |}).
Proof.
  apply (proj1 (score_order_independent _ _)). simpl.
  apply Permutation_sym, (Permutation_cons_app ["ACE"; "KING"] []), Permutation_refl.
Defined.

End Scoring.

(** ** The view *)

Section View.

Lemma upper_cons (c : ascii) (s : string) :
  exists a t, upper (String c s) = String a t.
Proof.
  destruct s as [|c' s]; cbn [upper]; [eauto|].
  destruct (Ascii.eqb c (ascii_of_nat 197) && Ascii.eqb c' (ascii_of_nat 191)); eauto.
Qed.

Lemma upper_two (c c' : ascii) (s : string) :
  upper (String c (String c' s)) =
  if Ascii.eqb c (ascii_of_nat 197) && Ascii.eqb c' (ascii_of_nat 191)
  then String "S" (upper s)
  else String (upper_ascii c) (upper (String c' s)).
Proof. reflexivity. Qed.

Lemma str_in_longer_false (a b : ascii) (t : string) :
  str_in (String a (String b t)) ["H"; "S"] = false.
Proof. cbn [str_in]. now rewrite !eqb_longer_false. Qed.

Lemma is_move_longer (c1 c2 : ascii) (s : string) :
  is_move (String c1 (String c2 s)) =
  String.eqb (String c1 (String c2 s)) long_s.
Proof.
  unfold is_move. cbn [str_in]. rewrite !eqb_longer_false.
  cbn [orb]. apply orb_false_r.
Qed.

(** The test of line 210 holds of the five lines of [is_move] and of no
    other. *)
Lemma is_move_upper (s : string) : str_in (upper s) ["H"; "S"] = is_move s.
Proof.
  destruct s as [|c1 [|c2 s]].
  - reflexivity.
  - destruct c1 as [[] [] [] [] [] [] [] []]; vm_compute; reflexivity.
  - rewrite is_move_longer, upper_two. unfold long_s.
    cbn [String.eqb].
    destruct (Ascii.eqb c1 (ascii_of_nat 197)); cbn [andb];
      [destruct (Ascii.eqb c2 (ascii_of_nat 191))|].
    + destruct s as [|c3 s]; [reflexivity|].
      destruct (upper_cons c3 s) as (a & t & ->). apply str_in_longer_false.
    + destruct (upper_cons c2 s) as (a & t & ->). apply str_in_longer_false.
    + destruct (upper_cons c2 s) as (a & t & ->). apply str_in_longer_false.
Qed.

Lemma upper_move (s : string) :
  is_move s = true -> upper s = "H" \/ upper s = "S".
Proof.
  rewrite <- is_move_upper. unfold str_in.
  destruct (String.eqb_spec (upper s) "H"); [now left|].
  destruct (String.eqb_spec (upper s) "S"); [now right|].
  discriminate.
Qed.

Lemma display_state_eq (final : bool) (w : World) :
  display_state final w =
  (Ret tt, set_stdout (stdout w ++ [Display (dealer w) (player w) final]) w).
Proof. reflexivity. Qed.

Lemma player_lost_eq (w : World) : player_lost w = (Ret tt, report YouLost w).
Proof. reflexivity. Qed.

Lemma player_won_eq (w : World) : player_won w = (Ret tt, report YouWon w).
Proof. reflexivity. Qed.

Lemma read_move_cons (action : string) (rest : list string) (printed : list event) :
  read_move (action :: rest) printed =
  if is_move action
  then (Ret (upper action), rest, printed ++ [Prompt])
  else read_move rest ((printed ++ [Prompt]) ++ [InvalidCommand]).
Proof. cbn [read_move]. now rewrite is_move_upper. Qed.

(** The input loop skips rejected lines and stops at the first accepted one. *)
Lemma read_move_accepts (pre : list string) (x : string) (rest : list string)
      (printed : list event) :
  Forall (fun s => is_move s = false) pre ->
  is_move x = true ->
  read_move (pre ++ x :: rest) printed =
  (Ret (upper x), rest,
   printed ++ flat_map (fun _ => [Prompt; InvalidCommand]) pre ++ [Prompt]).
Proof.
  intros Hpre Hx. revert printed.
  induction Hpre as [|y pre Hy _ IH]; intros printed.
  - cbn [app flat_map]. now rewrite read_move_cons, Hx.
  - cbn [app flat_map]. rewrite read_move_cons, Hy, IH, <- !app_assoc.
    reflexivity.
Qed.

(** With no accepted line the loop runs into the end of the input. *)
Lemma read_move_eof (lines : list string) (printed : list event) :
  Forall (fun s => is_move s = false) lines ->
  read_move lines printed =
  (Raise EOFError, [],
   printed ++ flat_map (fun _ => [Prompt; InvalidCommand]) lines ++ [Prompt]).
Proof.
  intros H. revert printed.
  induction H as [|y pre Hy _ IH]; intros printed.
  - reflexivity.
  - cbn [flat_map]. rewrite read_move_cons, Hy, IH, <- !app_assoc.
    reflexivity.
Qed.

(** Every input either holds a first accepted line or none at all. *)
Lemma first_move (lines : list string) :
  (exists pre x rest,
      lines = pre ++ x :: rest /\
      Forall (fun s => is_move s = false) pre /\ is_move x = true) \/
  Forall (fun s => is_move s = false) lines.
Proof.
  induction lines as [|y lines IH].
  - right. constructor.
  - destruct (is_move y) eqn:Hy.
    + left. exists [], y, lines. repeat split; [constructor | exact Hy].
    + destruct IH as [(pre & x & rest & -> & Hpre & Hx)|Hall].
      * left. exists (y :: pre), x, rest. repeat split; [|exact Hx].
        now constructor.
      * right. now constructor.
Qed.

Lemma ask_next_move_accepts (w : World) (pre : list string) (x : string)
      (rest : list string) :
  stdin w = pre ++ x :: rest ->
  Forall (fun s => is_move s = false) pre ->
  is_move x = true ->
  ask_next_move w = (Ret (upper x), asked pre rest w).
Proof.
  intros Hin Hpre Hx. unfold ask_next_move, bind.
  rewrite display_state_eq. cbn [stdin set_stdout stdout].
  rewrite Hin, (read_move_accepts _ _ _ _ Hpre Hx).
  unfold asking. rewrite <- app_assoc. reflexivity.
Qed.

Lemma ask_next_move_eof (w : World) :
  Forall (fun s => is_move s = false) (stdin w) ->
  ask_next_move w = (Raise EOFError, asked (stdin w) [] w).
Proof.
  intros Hall. unfold ask_next_move, bind.
  rewrite display_state_eq. cbn [stdin set_stdout stdout].
  rewrite (read_move_eof _ _ Hall).
  unfold asking. rewrite <- app_assoc. reflexivity.
Qed.

(** C9. When the console input holds a line equal to "H" or "S" up to
    case, [ask_next_move] returns the upper-cased first such line, which is
    "H" or "S"; it prompts once for every rejected line before it and once
    for the accepted one, consumes exactly these lines, and leaves both
    hands (cards and score) and the deck as they were.  Equal up to case is
    what Python's own comparison without regard to case makes it: the lines
    "H", "h", "S", "s" and the long s U+017F, which upper-cases to "S". *)
Theorem ask_next_move_first_valid :
  forall (w : World) (pre : list string) (x : string) (rest : list string),
    stdin w = pre ++ x :: rest ->
    Forall (fun s => is_move s = false) pre ->
    is_move x = true ->
    exists w' : World,
      ask_next_move w = (Ret (upper x), w') /\
      (upper x = "H" \/ upper x = "S") /\
      stdin w' = rest /\
      player w' = player w /\ dealer w' = dealer w /\ deck w' = deck w /\
      stdout w' =
        stdout w ++ Display (dealer w) (player w) false
                 :: flat_map (fun _ => [Prompt; InvalidCommand]) pre ++ [Prompt].
Proof.
  intros w pre x rest Hin Hpre Hx.
  eexists. split; [apply (ask_next_move_accepts w pre x rest Hin Hpre Hx)|].
  split; [now apply upper_move|].
  repeat split.
Qed.

Lemma ask_next_move_first_valid_witness :
  (exists w' : World,
      ask_next_move (boot (mkDeck true []) ["X"; "hit"; "s"; "H"]) = (Ret "S", w') /\
      stdin w' = ["H"] /\ player w' = Hand_init /\ dealer w' = Hand_init) /\
  (exists w' : World,
      ask_next_move (boot (mkDeck true []) [" h"; long_s; "h"]) = (Ret "S", w') /\
      stdin w' = ["h"] /\ player w' = Hand_init /\ dealer w' = Hand_init).
Proof.
  split.
  - destruct (ask_next_move_first_valid
                (boot (mkDeck true []) ["X"; "hit"; "s"; "H"]) ["X"; "hit"] "s" ["H"])
      as (w' & Hrun & _ & Hin & Hp & Hd & _).
    + reflexivity.
    + repeat constructor.
    + reflexivity.
    + exists w'. repeat split; assumption.
  - destruct (ask_next_move_first_valid
                (boot (mkDeck true []) [" h"; long_s; "h"]) [" h"] long_s ["h"])
      as (w' & Hrun & _ & Hin & Hp & Hd & _).
    + reflexivity.
    + repeat constructor.
    + reflexivity.
    + exists w'. repeat split; assumption.
Defined.

End View.

(** ** The controller: one step of each loop *)

Section Steps.

Lemma draw_some (w : World) (c : Card) (rest : list Card) :
  pile (deck w) = c :: rest -> draw w = (Ret c, take_card rest w).
Proof. intros H. unfold draw. now rewrite H. Qed.

Lemma draw_none (w : World) :
  pile (deck w) = [] -> draw w = (Raise IndexError, w).
Proof. intros H. unfold draw. now rewrite H. Qed.

(** [ask_next_move] hands the controller "H" or "S" and nothing else, having
    read at least one line, or fails at the end of the input. *)
Lemma ask_next_move_cases (w : World) :
  (exists pre rest,
      (List.length rest < List.length (stdin w))%nat /\
      (ask_next_move w = (Ret "H", asked pre rest w) \/
       ask_next_move w = (Ret "S", asked pre rest w))) \/
  ask_next_move w = (Raise EOFError, asked (stdin w) [] w).
Proof.
  destruct (first_move (stdin w)) as [(pre & x & rest & Hin & Hpre & Hx)|Hall].
  - left. exists pre, rest. split.
    + rewrite Hin, length_app. simpl. lia.
    + rewrite (ask_next_move_accepts w pre x rest Hin Hpre Hx).
      destruct (upper_move x Hx) as [-> | ->]; [now left | now right].
  - right. now apply ask_next_move_eof.
Qed.

Lemma players_turn_raise (n : nat) (w w1 : World) (e : exn) :
  ask_next_move w = (Raise e, w1) ->
  players_turn (S n) w = (Raise e, w1).
Proof. intros H. cbn [players_turn]. unfold bind at 1. now rewrite H. Qed.

Lemma players_turn_stand (n : nat) (w w1 : World) :
  ask_next_move w = (Ret "S", w1) ->
  players_turn (S n) w = (Ret None, w1).
Proof. intros H. cbn [players_turn]. unfold bind at 1. now rewrite H. Qed.

Lemma players_turn_hit_empty (n : nat) (w w1 : World) :
  ask_next_move w = (Ret "H", w1) ->
  pile (deck w1) = [] ->
  players_turn (S n) w = (Raise IndexError, w1).
Proof.
  intros H E. cbn [players_turn]. unfold bind at 1. rewrite H.
  cbn [String.eqb Ascii.eqb Bool.eqb andb]. cbv beta iota.
  unfold bind at 1. unfold bind at 1. now rewrite (draw_none _ E).
Qed.

Lemma players_turn_hit (n : nat) (w w1 : World) (c : Card) (rest : list Card) :
  ask_next_move w = (Ret "H", w1) ->
  pile (deck w1) = c :: rest ->
  players_turn (S n) w =
  let w2 := hit_player c rest w1 in
  if 21 <? score (player w2) then (Ret (Some true), report YouLost w2)
  else if score (player w2) =? 21 then (Ret (Some false), report YouWon w2)
  else if 22 <? score (player w2)
       then (Ret (Some false), report YouLost (entered193 w2))
       else players_turn n (checked192 w2).
Proof.
  intros H E. cbn [players_turn]. unfold bind at 1. rewrite H.
  cbn [String.eqb Ascii.eqb Bool.eqb andb]. cbv beta iota.
  unfold bind at 1. unfold bind at 1. rewrite (draw_some _ _ _ E).
  cbv zeta. unfold bind, player_add_card, modify, get, ret, mark.
  fold (hit_player c rest w1). fold (checked192 (hit_player c rest w1)).
  fold (entered193 (hit_player c rest w1)).
  destruct (21 <? score (player (hit_player c rest w1))); [reflexivity|].
  cbv beta iota.
  destruct (score (player (hit_player c rest w1)) =? 21); [reflexivity|].
  destruct (22 <? score (player (hit_player c rest w1))); reflexivity.
Qed.

(** One iteration of [players_turn], by what the player types and what is
    drawn.  The equations hold with any fuel. *)
Lemma players_turn_cases (w : World) :
  (forall n, players_turn (S n) w = (Raise EOFError, asked (stdin w) [] w)) \/
  exists pre rest,
    (List.length rest < List.length (stdin w))%nat /\
    ((forall n, players_turn (S n) w = (Ret None, asked pre rest w)) \/
     (pile (deck w) = [] /\
      forall n, players_turn (S n) w = (Raise IndexError, asked pre rest w)) \/
     (exists c rest',
         pile (deck w) = c :: rest' /\
         ((21 < score (player (hit_player c rest' (asked pre rest w))) /\
           forall n, players_turn (S n) w =
                     (Ret (Some true),
                      report YouLost (hit_player c rest' (asked pre rest w)))) \/
          (score (player (hit_player c rest' (asked pre rest w))) = 21 /\
           forall n, players_turn (S n) w =
                     (Ret (Some false),
                      report YouWon (hit_player c rest' (asked pre rest w)))) \/
          (score (player (hit_player c rest' (asked pre rest w))) < 21 /\
           forall n, players_turn (S n) w =
                     players_turn n
                       (checked192 (hit_player c rest' (asked pre rest w))))))).
Proof.
  destruct (ask_next_move_cases w) as [(pre & rest & Hlen & [Hh|Hs])|Heof].
  - right. exists pre, rest. split; [exact Hlen|]. right.
    destruct (pile (deck w)) as [|c rest'] eqn:E.
    + left. split; [reflexivity|]. intros n.
      now apply players_turn_hit_empty.
    + right. exists c, rest'. split; [reflexivity|].
      set (w2 := hit_player c rest' (asked pre rest w)).
      assert (Hstep := fun n => players_turn_hit n w _ c rest' Hh E).
      cbv zeta in Hstep. fold w2 in Hstep.
      destruct (Z.ltb_spec 21 (score (player w2))) as [Hgt|Hle].
      * left. split; [exact Hgt | exact Hstep].
      * right. destruct (Z.eqb_spec (score (player w2)) 21) as [Heq|Hne].
        -- left. split; [exact Heq | exact Hstep].
        -- right. split; [lia|]. intros n. rewrite Hstep.
           destruct (Z.ltb_spec 22 (score (player w2))); [lia | reflexivity].
  - right. exists pre, rest. split; [exact Hlen|]. left.
    intros n. now apply players_turn_stand.
  - left. intros n. now apply players_turn_raise.
Qed.

(** One iteration of the [while] of [dealers_turn]. *)
Lemma dealers_loop_cases (w : World) :
  (score (player w) < score (dealer w) /\
   forall n, dealers_loop (S n) w = (Ret false, w)) \/
  (score (dealer w) <= score (player w) /\
   ((pile (deck w) = [] /\
     forall n, dealers_loop (S n) w = (Raise IndexError, w)) \/
    (exists c rest,
        pile (deck w) = c :: rest /\
        ((score (dealer (hit_dealer c rest w)) = 21 /\
          forall n, dealers_loop (S n) w =
                    (Ret true, report YouLost (hit_dealer c rest w))) \/
         (score (dealer (hit_dealer c rest w)) <> 21 /\
          forall n, dealers_loop (S n) w =
                    dealers_loop n (hit_dealer c rest w)))))).
Proof.
  destruct (Z.leb_spec (score (dealer w)) (score (player w))) as [Hle|Hgt].
  - right. split; [exact Hle|].
    apply Z.leb_le in Hle.
    destruct (pile (deck w)) as [|c rest] eqn:E.
    + left. split; [reflexivity|]. intros n.
      cbn [dealers_loop]. unfold bind, get. rewrite Hle.
      now rewrite (draw_none _ E).
    + right. exists c, rest. split; [reflexivity|].
      assert (Hstep : forall n, dealers_loop (S n) w =
                if score (dealer (hit_dealer c rest w)) =? 21
                then (Ret true, report YouLost (hit_dealer c rest w))
                else dealers_loop n (hit_dealer c rest w)).
      { intros n. cbn [dealers_loop]. unfold bind, get. rewrite Hle.
        rewrite (draw_some _ _ _ E). unfold dealer_add_card, modify.
        fold (hit_dealer c rest w).
        destruct (score (dealer (hit_dealer c rest w)) =? 21); reflexivity. }
      destruct (Z.eqb_spec (score (dealer (hit_dealer c rest w))) 21) as [Heq|Hne].
      * left. split; [exact Heq | exact Hstep].
      * right. split; [exact Hne | exact Hstep].
  - left. split; [exact Hgt|]. intros n.
    apply Z.leb_gt in Hgt.
    cbn [dealers_loop]. unfold bind, get. now rewrite Hgt.
Qed.

(** The code of [dealers_turn] after the [while]. *)
Lemma dealers_turn_exit (n : nat) (w w' : World) :
  dealers_loop n w = (Ret false, w') ->
  dealers_turn n w =
  if score (dealer w') <? 21 then (Ret tt, report YouLost w')
  else if 22 <? score (dealer w') then (Ret tt, report YouWon w')
  else (Ret tt, w').
Proof.
  intros H. unfold dealers_turn. unfold bind at 1. rewrite H.
  unfold bind, get.
  destruct (score (dealer w') <? 21); [reflexivity|].
  destruct (22 <? score (dealer w')); reflexivity.
Qed.

Lemma dealers_turn_returned (n : nat) (w w' : World) :
  dealers_loop n w = (Ret true, w') ->
  dealers_turn n w = (Ret tt, w').
Proof. intros H. unfold dealers_turn. unfold bind at 1. now rewrite H. Qed.

Lemma dealers_turn_continue (n m : nat) (w w' : World) :
  dealers_loop n w = dealers_loop m w' ->
  dealers_turn n w = dealers_turn m w'.
Proof. intros H. unfold dealers_turn. unfold bind at 1 3. now rewrite H. Qed.

Lemma dealers_turn_raise (n : nat) (w w' : World) (e : exn) :
  dealers_loop n w = (Raise e, w') ->
  dealers_turn n w = (Raise e, w').
Proof. intros H. unfold dealers_turn. unfold bind at 1. now rewrite H. Qed.

End Steps.

(** ** The dealer's turn *)

Section DealersTurn.

(** C4. In [dealers_turn] the dealer draws a card while the dealer's score
    is at most the player's; a draw that brings the dealer to exactly 21
    reports "player loses" and ends the turn, any other draw leads back to
    the loop test; once the dealer's score exceeds the player's nothing more
    is drawn, and the report is "player loses" for a dealer below 21 and
    "player wins" for a dealer above 22. *)
Theorem dealers_turn_rule :
  forall (n : nat) (w : World),
    (forall c rest,
        score (dealer w) <= score (player w) ->
        pile (deck w) = c :: rest ->
        (score (dealer (hit_dealer c rest w)) = 21 ->
         dealers_turn (S n) w = (Ret tt, report YouLost (hit_dealer c rest w))) /\
        (score (dealer (hit_dealer c rest w)) <> 21 ->
         dealers_turn (S n) w = dealers_turn n (hit_dealer c rest w))) /\
    (score (player w) < score (dealer w) ->
     (score (dealer w) < 21 ->
      dealers_turn (S n) w = (Ret tt, report YouLost w)) /\
     (22 < score (dealer w) ->
      dealers_turn (S n) w = (Ret tt, report YouWon w))).
Proof.
  intros n w. split.
  - intros c rest Hle E.
    destruct (dealers_loop_cases w) as [[Hgt _]|[_ [[E' _]|(c' & rest' & E' & Hc)]]];
      [lia | congruence |].
    rewrite E in E'. injection E' as <- <-.
    destruct Hc as [[H21 Hstep]|[Hne Hstep]]; split; intros H; try contradiction.
    + apply dealers_turn_returned, Hstep.
    + apply dealers_turn_continue, Hstep.
  - intros Hgt.
    destruct (dealers_loop_cases w) as [[_ Hstep]|[Hle _]]; [|lia].
    split; intros H; rewrite (dealers_turn_exit _ _ _ (Hstep n)).
    + destruct (Z.ltb_spec (score (dealer w)) 21); [reflexivity | lia].
    + destruct (Z.ltb_spec (score (dealer w)) 21); [lia|].
      destruct (Z.ltb_spec 22 (score (dealer w))); [reflexivity | lia].
Qed.

Lemma dealers_turn_rule_witness :
  dealers_turn 1 (table ["10"; "9"] ["10"; "6"] ["5"] []) =
    (Ret tt, report YouLost
               (hit_dealer (a_card "5") [] (table ["10"; "9"] ["10"; "6"] ["5"] []))) /\
  dealers_turn 2 (table ["10"; "9"] ["10"; "6"] ["2"; "3"] []) =
    dealers_turn 1
      (hit_dealer (a_card "2") [a_card "3"]
         (table ["10"; "9"] ["10"; "6"] ["2"; "3"] [])) /\
  dealers_turn 1 (table ["10"; "7"] ["10"; "9"] ["4"] []) =
    (Ret tt, report YouLost (table ["10"; "7"] ["10"; "9"] ["4"] [])) /\
  dealers_turn 1 (table ["10"; "9"] ["10"; "6"; "7"] ["4"] []) =
    (Ret tt, report YouWon (table ["10"; "9"] ["10"; "6"; "7"] ["4"] [])).
Proof.
  split; [|split; [|split]].
  - apply (proj1 (dealers_turn_rule 0 _) (a_card "5") []);
      [vm_compute; discriminate | reflexivity | reflexivity].
  - apply (proj1 (dealers_turn_rule 1 _) (a_card "2") [a_card "3"]);
      [vm_compute; discriminate | reflexivity | vm_compute; discriminate].
  - apply (proj2 (dealers_turn_rule 0 _)); reflexivity.
  - apply (proj2 (dealers_turn_rule 0 _)); reflexivity.
Defined.

End DealersTurn.

(** ** Induction along the loops *)

Section LoopInduction.

(** A property of a run of [players_turn] follows from its cases. *)
Lemma players_turn_induction
      (P : World -> outcome (option bool) * World -> Prop) :
  (forall w, P w (OutOfFuel, w)) ->
  (forall w, P w (Raise EOFError, asked (stdin w) [] w)) ->
  (forall w pre rest,
      (List.length rest < List.length (stdin w))%nat ->
      P w (Ret None, asked pre rest w)) ->
  (forall w pre rest,
      (List.length rest < List.length (stdin w))%nat ->
      pile (deck w) = [] ->
      P w (Raise IndexError, asked pre rest w)) ->
  (forall w pre rest c rest',
      (List.length rest < List.length (stdin w))%nat ->
      pile (deck w) = c :: rest' ->
      21 < score (player (hit_player c rest' (asked pre rest w))) ->
      P w (Ret (Some true), report YouLost (hit_player c rest' (asked pre rest w)))) ->
  (forall w pre rest c rest',
      (List.length rest < List.length (stdin w))%nat ->
      pile (deck w) = c :: rest' ->
      score (player (hit_player c rest' (asked pre rest w))) = 21 ->
      P w (Ret (Some false), report YouWon (hit_player c rest' (asked pre rest w)))) ->
  (forall w pre rest c rest' res,
      (List.length rest < List.length (stdin w))%nat ->
      pile (deck w) = c :: rest' ->
      score (player (hit_player c rest' (asked pre rest w))) < 21 ->
      P (checked192 (hit_player c rest' (asked pre rest w))) res ->
      P w res) ->
  forall n w, P w (players_turn n w).
Proof.
  intros Hfuel Heof Hstand Hempty Hbust H21 Hmore.
  induction n as [|n IH]; intros w.
  - apply Hfuel.
  - destruct (players_turn_cases w)
      as [E|(pre & rest & Hlen & [E|[[Hp E]|(c & rest' & Hp & [[Hs E]|[[Hs E]|[Hs E]]])]])];
      rewrite E.
    + apply Heof.
    + now apply Hstand.
    + now apply Hempty.
    + now apply Hbust.
    + now apply H21.
    + eapply Hmore; eauto.
Qed.

(** The same for the [while] of [dealers_turn]. *)
Lemma dealers_loop_induction (P : World -> outcome bool * World -> Prop) :
  (forall w, P w (OutOfFuel, w)) ->
  (forall w, score (player w) < score (dealer w) -> P w (Ret false, w)) ->
  (forall w,
      score (dealer w) <= score (player w) ->
      pile (deck w) = [] ->
      P w (Raise IndexError, w)) ->
  (forall w c rest,
      score (dealer w) <= score (player w) ->
      pile (deck w) = c :: rest ->
      score (dealer (hit_dealer c rest w)) = 21 ->
      P w (Ret true, report YouLost (hit_dealer c rest w))) ->
  (forall w c rest res,
      score (dealer w) <= score (player w) ->
      pile (deck w) = c :: rest ->
      score (dealer (hit_dealer c rest w)) <> 21 ->
      P (hit_dealer c rest w) res ->
      P w res) ->
  forall n w, P w (dealers_loop n w).
Proof.
  intros Hfuel Hexit Hempty H21 Hmore.
  induction n as [|n IH]; intros w.
  - apply Hfuel.
  - destruct (dealers_loop_cases w)
      as [[Hgt E]|[Hle [[Hp E]|(c & rest & Hp & [[Hs E]|[Hs E]])]]];
      rewrite E.
    + now apply Hexit.
    + now apply Hempty.
    + now apply H21.
    + eapply Hmore; eauto.
Qed.

End LoopInduction.

(** ** The player's turn *)

(** Projections of the worlds the steps build. *)
Ltac world_simpl :=
  cbn [fst snd report asked hit_player hit_dealer take_card checked192 entered193
       set_deck set_stdin set_player set_dealer set_stdout set_probes
       deck stdin player dealer stdout probes pile is_shuffled].

Section PlayersTurn.


Lemma reports_app (a b : list event) : reports (a ++ b) = reports a ++ reports b.
Proof. apply filter_app. Qed.

Lemma reports_asking (w : World) (pre : list string) : reports (asking w pre) = [].
Proof.
  unfold asking. cbn [reports filter is_report]. fold (reports).
  induction pre as [|y pre IH]; [reflexivity|exact IH].
Qed.

Lemma asking_head (w : World) (pre : list string) :
  exists tail, asking w pre = Display (dealer w) (player w) false :: Prompt :: tail.
Proof.
  unfold asking. destruct pre as [|y pre]; cbn [flat_map app]; eexists; reflexivity.
Qed.

(** The player's turn never touches the dealer's hand. *)
Lemma players_turn_dealer (n : nat) (w : World) :
  dealer (snd (players_turn n w)) = dealer w.
Proof.
  apply (players_turn_induction (fun w res => dealer (snd res) = dealer w));
    try reflexivity.
  intros w0 pre rest c rest' res _ _ _ IH. exact IH.
Qed.

(** What the player's turn prints: it only adds to the console, and it adds
    exactly the report that goes with the value it returns. *)
Lemma players_turn_stdout (n : nat) (w : World) :
  exists tail,
    stdout (snd (players_turn n w)) = stdout w ++ tail /\
    reports tail =
      match fst (players_turn n w) with
      | Ret (Some true) => [YouLost]
      | Ret (Some false) => [YouWon]
      | _ => []
      end.
Proof.
  apply (players_turn_induction
           (fun w res =>
              exists tail,
                stdout (snd res) = stdout w ++ tail /\
                reports tail =
                  match fst res with
                  | Ret (Some true) => [YouLost]
                  | Ret (Some false) => [YouWon]
                  | _ => []
                  end)).
  - intros w0. exists []. split; [now rewrite app_nil_r | reflexivity].
  - intros w0. exists (asking w0 (stdin w0)). split; [reflexivity|].
    apply reports_asking.
  - intros w0 pre rest _. exists (asking w0 pre). split; [reflexivity|].
    apply reports_asking.
  - intros w0 pre rest _ _. exists (asking w0 pre). split; [reflexivity|].
    apply reports_asking.
  - intros w0 pre rest c rest' _ _ _.
    eexists. split.
    + world_simpl. rewrite <- !app_assoc. reflexivity.
    + rewrite !reports_app, reports_asking. reflexivity.
  - intros w0 pre rest c rest' _ _ _.
    eexists. split.
    + world_simpl. rewrite <- !app_assoc. reflexivity.
    + rewrite !reports_app, reports_asking. reflexivity.
  - intros w0 pre rest c rest' res _ _ _ (tail & Hout & Hrep).
    exists (asking w0 pre ++ tail). split.
    + rewrite Hout. world_simpl. now rewrite app_assoc.
    + now rewrite reports_app, reports_asking.
Qed.

(** The score the player's turn ends with, by the value it returns. *)
Lemma players_turn_final_score (n : nat) (w : World) :
  match fst (players_turn n w) with
  | Ret (Some true) => 21 < score (player (snd (players_turn n w)))
  | Ret (Some false) => score (player (snd (players_turn n w))) = 21
  | _ => True
  end.
Proof.
  apply (players_turn_induction
           (fun w res =>
              match fst res with
              | Ret (Some true) => 21 < score (player (snd res))
              | Ret (Some false) => score (player (snd res)) = 21
              | _ => True
              end)); try (intros; exact I).
  - intros w0 pre rest c rest' _ _ H. exact H.
  - intros w0 pre rest c rest' _ _ H. exact H.
  - intros w0 pre rest c rest' res _ _ _ IH. exact IH.
Qed.

(** The ghost markers left by the player's turn: line 192 is only ever
    evaluated on a score below 21, and line 193 is never entered. *)
Lemma players_turn_probes (n : nat) (w : World) :
  exists marks,
    probes (snd (players_turn n w)) = probes w ++ marks /\
    Forall probe_ok marks.
Proof.
  apply (players_turn_induction
           (fun w res =>
              exists marks,
                probes (snd res) = probes w ++ marks /\ Forall probe_ok marks));
    try (intros; exists []; split; [world_simpl; now rewrite app_nil_r | constructor]).
  intros w0 pre rest c rest' res _ _ Hlt (marks & Hp & Hok).
  exists (Reach192 (score (player (hit_player c rest' (asked pre rest w0)))) :: marks).
  split.
  - rewrite Hp. world_simpl. now rewrite <- app_assoc.
  - constructor; [exact Hlt | exact Hok].
Qed.

(** Each iteration opens by showing the state and prompting for a move. *)
Lemma players_turn_asks (n : nat) (w : World) :
  exists tail,
    stdout (snd (players_turn (S n) w)) =
    stdout w ++ Display (dealer w) (player w) false :: Prompt :: tail.
Proof.
  assert (Hasked : forall pre rest (w' : World) tail,
             stdout w' = stdout (asked pre rest w) ++ tail ->
             exists tail',
               stdout w' =
               stdout w ++ Display (dealer w) (player w) false :: Prompt :: tail').
  { intros pre rest w' tail ->.
    destruct (asking_head w pre) as (t & Ht).
    exists (t ++ tail). world_simpl. rewrite Ht, <- app_assoc. reflexivity. }
  destruct (players_turn_cases w)
    as [E|(pre & rest & Hlen & [E|[[Hp E]|(c & rest' & Hp & [[Hs E]|[[Hs E]|[Hs E]]])]])];
    rewrite E.
  - apply (Hasked (stdin w) [] _ []). now rewrite app_nil_r.
  - apply (Hasked pre rest _ []). now rewrite app_nil_r.
  - apply (Hasked pre rest _ []). now rewrite app_nil_r.
  - eapply (Hasked pre rest). world_simpl. rewrite <- !app_assoc. reflexivity.
  - eapply (Hasked pre rest). world_simpl. rewrite <- !app_assoc. reflexivity.
  - destruct (players_turn_stdout n (checked192 (hit_player c rest' (asked pre rest w))))
      as (tail & Hout & _).
    eapply (Hasked pre rest). rewrite Hout. reflexivity.
Qed.

(** Fuel above the number of unread lines is never used up, and the run
    does not depend on it. *)
Lemma players_turn_fuel (n m : nat) (w : World) :
  (List.length (stdin w) < n)%nat ->
  (List.length (stdin w) < m)%nat ->
  players_turn n w = players_turn m w.
Proof.
  revert m w. induction n as [|n IH]; intros m w Hn Hm; [lia|].
  destruct m as [|m]; [lia|].
  destruct (players_turn_cases w)
    as [E|(pre & rest & Hlen & [E|[[Hp E]|(c & rest' & Hp & [[Hs E]|[[Hs E]|[Hs E]]])]])];
    rewrite (E n), (E m); try reflexivity.
  apply IH; world_simpl; lia.
Qed.

Lemma players_turn_total (n : nat) (w : World) :
  (List.length (stdin w) < n)%nat ->
  fst (players_turn n w) <> OutOfFuel.
Proof.
  revert w. induction n as [|n IH]; intros w Hn; [lia|].
  destruct (players_turn_cases w)
    as [E|(pre & rest & Hlen & [E|[[Hp E]|(c & rest' & Hp & [[Hs E]|[[Hs E]|[Hs E]]])]])];
    rewrite (E n); try discriminate.
  apply IH; world_simpl; lia.
Qed.

(** C5. After a Hit (one card drawn and added to the player's hand): with
    a score above 21 [players_turn] reports "player loses" and returns
    [True], and the game is over; with a score of exactly 21 it reports
    "player wins" and returns [False], and the game is over; with a lower
    score the loop goes round again, showing the state and prompting for the
    next move.  Drawing to exactly 22 is a loss. *)
Theorem players_turn_hit_rule :
  forall (n : nat) (w w1 : World) (c : Card) (rest : list Card),
    ask_next_move w = (Ret "H", w1) ->
    pile (deck w1) = c :: rest ->
    (21 < score (player (hit_player c rest w1)) ->
     players_turn (S n) w = (Ret (Some true), report YouLost (hit_player c rest w1)) /\
     bind (players_turn (S n)) after_players_turn w =
       (Ret tt, report YouLost (hit_player c rest w1))) /\
    (score (player (hit_player c rest w1)) = 21 ->
     players_turn (S n) w = (Ret (Some false), report YouWon (hit_player c rest w1)) /\
     bind (players_turn (S n)) after_players_turn w =
       (Ret tt, report YouWon (hit_player c rest w1))) /\
    (score (player (hit_player c rest w1)) < 21 ->
     players_turn (S n) w = players_turn n (checked192 (hit_player c rest w1)) /\
     forall m, n = S m ->
       exists tail,
         stdout (snd (players_turn (S n) w)) =
         stdout w1 ++ Display (dealer w1) (player (hit_player c rest w1)) false
                   :: Prompt :: tail) /\
    (score (player (hit_player c rest w1)) = 22 ->
     players_turn (S n) w = (Ret (Some true), report YouLost (hit_player c rest w1))).
Proof.
  intros n w w1 c rest Hask Hpile.
  assert (Hstep := players_turn_hit n w w1 c rest Hask Hpile). cbv zeta in Hstep.
  assert (Hbust : 21 < score (player (hit_player c rest w1)) ->
                  players_turn (S n) w =
                  (Ret (Some true), report YouLost (hit_player c rest w1))).
  { intros H. rewrite Hstep.
    destruct (Z.ltb_spec 21 (score (player (hit_player c rest w1))));
      [reflexivity | lia]. }
  split; [|split; [|split]].
  - intros H. split; [now apply Hbust|].
    unfold bind. now rewrite (Hbust H).
  - intros H.
    assert (E : players_turn (S n) w =
                (Ret (Some false), report YouWon (hit_player c rest w1))).
    { rewrite Hstep, H. reflexivity. }
    split; [exact E|]. unfold bind. now rewrite E.
  - intros H.
    assert (E : players_turn (S n) w =
                players_turn n (checked192 (hit_player c rest w1))).
    { rewrite Hstep.
      destruct (Z.ltb_spec 21 (score (player (hit_player c rest w1)))); [lia|].
      destruct (Z.eqb_spec (score (player (hit_player c rest w1))) 21); [lia|].
      destruct (Z.ltb_spec 22 (score (player (hit_player c rest w1)))); [lia|].
      reflexivity. }
    split; [exact E|]. intros m ->. rewrite E.
    destruct (players_turn_asks m (checked192 (hit_player c rest w1))) as (tail & Ht).
    exists tail. rewrite Ht. reflexivity.
  - intros H. apply Hbust. lia.
Qed.

Lemma players_turn_hit_rule_witness :
  players_turn 2 (table ["10"; "9"] ["10"; "6"] ["3"; "4"] ["h"; "S"]) =
    (Ret (Some true),
     report YouLost
       (hit_player (a_card "3") [a_card "4"]
          (asked [] ["S"] (table ["10"; "9"] ["10"; "6"] ["3"; "4"] ["h"; "S"])))) /\
  players_turn 2 (table ["10"; "9"] ["10"; "6"] ["2"; "4"] ["h"; "S"]) =
    (Ret (Some false),
     report YouWon
       (hit_player (a_card "2") [a_card "4"]
          (asked [] ["S"] (table ["10"; "9"] ["10"; "6"] ["2"; "4"] ["h"; "S"])))) /\
  players_turn 2 (table ["10"; "5"] ["10"; "6"] ["2"; "4"] ["h"; "S"]) =
    players_turn 1
      (checked192
         (hit_player (a_card "2") [a_card "4"]
            (asked [] ["S"] (table ["10"; "5"] ["10"; "6"] ["2"; "4"] ["h"; "S"])))).
Proof.
  split; [|split].
  - refine (proj1 (proj1 (players_turn_hit_rule 1
                            (table ["10"; "9"] ["10"; "6"] ["3"; "4"] ["h"; "S"])
                            (asked [] ["S"] (table ["10"; "9"] ["10"; "6"] ["3"; "4"] ["h"; "S"])) (a_card "3") [a_card "4"]
                            eq_refl eq_refl) _)).
    reflexivity.
  - refine (proj1 (proj1 (proj2 (players_turn_hit_rule 1
                            (table ["10"; "9"] ["10"; "6"] ["2"; "4"] ["h"; "S"])
                            (asked [] ["S"] (table ["10"; "9"] ["10"; "6"] ["2"; "4"] ["h"; "S"])) (a_card "2") [a_card "4"]
                            eq_refl eq_refl)) _)).
    reflexivity.
  - refine (proj1 (proj1 (proj2 (proj2 (players_turn_hit_rule 1
                            (table ["10"; "5"] ["10"; "6"] ["2"; "4"] ["h"; "S"])
                            (asked [] ["S"] (table ["10"; "5"] ["10"; "6"] ["2"; "4"] ["h"; "S"])) (a_card "2") [a_card "4"]
                            eq_refl eq_refl))) _)).
    reflexivity.
Defined.

End PlayersTurn.

(** ** What the dealer's turn leaves alone and what it prints *)

Section DealersSummary.

Lemma dealers_loop_frame (n : nat) (w : World) :
  player (snd (dealers_loop n w)) = player w /\
  stdin (snd (dealers_loop n w)) = stdin w /\
  probes (snd (dealers_loop n w)) = probes w.
Proof.
  apply (dealers_loop_induction
           (fun w res =>
              player (snd res) = player w /\
              stdin (snd res) = stdin w /\
              probes (snd res) = probes w));
    try (intros; repeat split; reflexivity).
  intros w0 c rest res _ _ _ IH. exact IH.
Qed.

Lemma dealers_loop_stdout (n : nat) (w : World) :
  exists tail,
    stdout (snd (dealers_loop n w)) = stdout w ++ tail /\
    reports tail =
      match fst (dealers_loop n w) with
      | Ret true => [YouLost]
      | _ => []
      end.
Proof.
  apply (dealers_loop_induction
           (fun w res =>
              exists tail,
                stdout (snd res) = stdout w ++ tail /\
                reports tail =
                  match fst res with
                  | Ret true => [YouLost]
                  | _ => []
                  end));
    try (intros; exists []; split; [world_simpl; now rewrite app_nil_r | reflexivity]).
  - intros w0 c rest _ _ _. eexists. split.
    + world_simpl. rewrite <- app_assoc. reflexivity.
    + reflexivity.
  - intros w0 c rest res _ _ _ IH. exact IH.
Qed.

(** [dealers_turn] in terms of how its loop ends. *)
Lemma dealers_turn_by_loop (n : nat) (w : World) :
  dealers_turn n w =
  match dealers_loop n w with
  | (Ret true, w') => (Ret tt, w')
  | (Ret false, w') =>
      if score (dealer w') <? 21 then (Ret tt, report YouLost w')
      else if 22 <? score (dealer w') then (Ret tt, report YouWon w')
      else (Ret tt, w')
  | (Raise e, w') => (Raise e, w')
  | (OutOfFuel, w') => (OutOfFuel, w')
  end.
Proof.
  destruct (dealers_loop n w) as [[[|]|e|] w'] eqn:E.
  - now apply dealers_turn_returned.
  - now apply dealers_turn_exit.
  - now apply dealers_turn_raise.
  - unfold dealers_turn. unfold bind at 1. now rewrite E.
Qed.

Lemma dealers_turn_frame (n : nat) (w : World) :
  player (snd (dealers_turn n w)) = player w /\
  stdin (snd (dealers_turn n w)) = stdin w /\
  probes (snd (dealers_turn n w)) = probes w.
Proof.
  rewrite dealers_turn_by_loop.
  pose proof (dealers_loop_frame n w) as F.
  destruct (dealers_loop n w) as [[[|]|e|] w']; cbn [snd] in F; try exact F.
  destruct (score (dealer w') <? 21); [exact F|].
  destruct (22 <? score (dealer w')); exact F.
Qed.

(** The dealer's turn adds to the console, and at most one report. *)
Lemma dealers_turn_stdout (n : nat) (w : World) :
  exists tail,
    stdout (snd (dealers_turn n w)) = stdout w ++ tail /\
    (List.length (reports tail) <= 1)%nat.
Proof.
  rewrite dealers_turn_by_loop.
  destruct (dealers_loop_stdout n w) as (tail & Hout & Hrep).
  destruct (dealers_loop n w) as [[[|]|e|] w']; cbn [fst snd] in Hout, Hrep.
  - exists tail. split; [exact Hout | rewrite Hrep; simpl; lia].
  - destruct (score (dealer w') <? 21); [|destruct (22 <? score (dealer w'))].
    + eexists. split.
      * world_simpl. rewrite Hout, <- !app_assoc. reflexivity.
      * rewrite reports_app, Hrep. simpl. lia.
    + eexists. split.
      * world_simpl. rewrite Hout, <- !app_assoc. reflexivity.
      * rewrite reports_app, Hrep. simpl. lia.
    + exists tail. split; [exact Hout | rewrite Hrep; simpl; lia].
  - exists tail. split; [exact Hout | rewrite Hrep; simpl; lia].
  - exists tail. split; [exact Hout | rewrite Hrep; simpl; lia].
Qed.

(** Fuel above the number of cards on the pile is never used up. *)
Lemma dealers_loop_total (n : nat) (w : World) :
  (List.length (pile (deck w)) < n)%nat ->
  fst (dealers_loop n w) <> OutOfFuel.
Proof.
  revert w. induction n as [|n IH]; intros w Hn; [lia|].
  destruct (dealers_loop_cases w)
    as [[Hgt E]|[Hle [[Hp E]|(c & rest & Hp & [[Hs E]|[Hs E]])]]];
    rewrite (E n); try discriminate.
  apply IH. world_simpl. rewrite Hp in Hn. cbn [List.length] in Hn. lia.
Qed.

Lemma dealers_turn_total (n : nat) (w : World) :
  (List.length (pile (deck w)) < n)%nat ->
  fst (dealers_turn n w) <> OutOfFuel.
Proof.
  intros Hn. rewrite dealers_turn_by_loop.
  pose proof (dealers_loop_total n w Hn) as T.
  destruct (dealers_loop n w) as [[[|]|e|] w']; cbn [fst] in *;
    try discriminate; try congruence.
  destruct (score (dealer w') <? 21); [discriminate|].
  destruct (22 <? score (dealer w')); discriminate.
Qed.

End DealersSummary.

(** ** The whole game *)

Section Game.

(** The world in which [draw_first_cards] is called. *)
Lemma before_dealing (d : Deck) (lines : list string) :
  (check_shuffle ;; modify (set_player Hand_init) ;; modify (set_dealer Hand_init))
    (boot d lines) =
  (Ret tt, boot {| is_shuffled := true; pile := pile d |} lines).
Proof. destruct d as [[|] p]; reflexivity. Qed.

Lemma draw_first_cards_dealt (w : World) (c1 c2 c3 c4 : Card) (rest : list Card) :
  pile (deck w) = c1 :: c2 :: c3 :: c4 :: rest ->
  draw_first_cards w =
  (Ret (score (add_card (add_card (player w) c1) c3)),
   set_dealer (add_card (add_card (dealer w) c2) c4)
     (set_player (add_card (add_card (player w) c1) c3) (take_card rest w))).
Proof.
  destruct w as [[b p] i pl dl o pr]. cbn [deck pile]. intros ->. reflexivity.
Qed.

(** A game on a pile of at least four cards: the deal, then either the
    immediate win or the player's turn and what follows it. *)
Lemma play_deal (d : Deck) (lines : list string) (c1 c2 c3 c4 : Card)
      (rest : list Card) :
  pile d = c1 :: c2 :: c3 :: c4 :: rest ->
  play d lines =
  if score (player (dealt c1 c2 c3 c4 rest lines)) =? 21
  then (Ret tt, report YouWon (dealt c1 c2 c3 c4 rest lines))
  else bind (fun w => players_turn (players_fuel w) w) after_players_turn
            (dealt c1 c2 c3 c4 rest lines).
Proof.
  intros Hp. destruct d as [b p]. cbn [pile] in Hp. subst p.
  unfold play, controller_init.
  assert (E : forall k : World -> outcome unit * World,
             (check_shuffle ;; modify (set_player Hand_init) ;;
              modify (set_dealer Hand_init) ;; k)
               (boot {| is_shuffled := b; pile := c1 :: c2 :: c3 :: c4 :: rest |} lines) =
             k (boot {| is_shuffled := true; pile := c1 :: c2 :: c3 :: c4 :: rest |} lines)).
  { intros k. destruct b; reflexivity. }
  rewrite E. unfold bind at 1.
  rewrite (draw_first_cards_dealt
             (boot {| is_shuffled := true; pile := c1 :: c2 :: c3 :: c4 :: rest |} lines)
             c1 c2 c3 c4 rest eq_refl).
  change (set_dealer _ _) with (dealt c1 c2 c3 c4 rest lines).
  change (score (add_card (add_card (player (boot _ lines)) c1) c3))
    with (score (player (dealt c1 c2 c3 c4 rest lines))).
  destruct (score (player (dealt c1 c2 c3 c4 rest lines)) =? 21); reflexivity.
Qed.

(** A game on a shorter pile fails in the deal, having printed nothing. *)
Lemma play_short (d : Deck) (lines : list string) :
  (List.length (pile d) < 4)%nat ->
  exists (p dl : Hand) (rest : list Card),
    play d lines = (Raise IndexError, mkWorld (mkDeck true rest) lines p dl [] []) /\
    fresh p /\ fresh dl.
Proof.
  assert (F0 : fresh Hand_init) by reflexivity.
  assert (F1 : forall h c, fresh (add_card h c)).
  { intros h c. unfold fresh. destruct (add_card_score h c) as [-> ->]. reflexivity. }
  destruct d as [b [|c1 [|c2 [|c3 [|c4 rest]]]]]; cbn [pile List.length]; intros H;
    try lia; destruct b; do 3 eexists; (split; [reflexivity|]);
    unfold boot; world_simpl; split; auto.
Qed.

(** Every game is of one of these two kinds. *)
Lemma play_cases (d : Deck) (lines : list string) :
  (exists (p dl : Hand) (rest : list Card),
      play d lines = (Raise IndexError, mkWorld (mkDeck true rest) lines p dl [] []) /\
      fresh p /\ fresh dl) \/
  (exists (c1 c2 c3 c4 : Card) (rest : list Card),
      pile d = c1 :: c2 :: c3 :: c4 :: rest /\
      play d lines =
      if score (player (dealt c1 c2 c3 c4 rest lines)) =? 21
      then (Ret tt, report YouWon (dealt c1 c2 c3 c4 rest lines))
      else bind (fun w => players_turn (players_fuel w) w) after_players_turn
                (dealt c1 c2 c3 c4 rest lines)).
Proof.
  destruct (Nat.lt_ge_cases (List.length (pile d)) 4) as [Hshort|Hlong].
  - left. now apply play_short.
  - right. destruct (pile d) as [|c1 [|c2 [|c3 [|c4 rest]]]] eqn:E;
      cbn [List.length] in Hlong; try lia.
    exists c1, c2, c3, c4, rest. split; [reflexivity|].
    now apply play_deal.
Qed.

Lemma after_players_turn_eq (lost : option bool) (w : World) :
  after_players_turn lost w =
  match lost with
  | Some _ => (Ret tt, w)
  | None =>
      if score (dealer w) =? 21 then (Ret tt, report YouLost w)
      else dealers_turn (dealers_fuel w) w
  end.
Proof.
  destruct lost; [reflexivity|].
  unfold after_players_turn, bind, get.
  destruct (score (dealer w) =? 21); reflexivity.
Qed.

Lemma turns_eq (w : World) :
  bind (fun w => players_turn (players_fuel w) w) after_players_turn w =
  match players_turn (players_fuel w) w with
  | (Ret lost, w') => after_players_turn lost w'
  | (Raise e, w') => (Raise e, w')
  | (OutOfFuel, w') => (OutOfFuel, w')
  end.
Proof. reflexivity. Qed.

(** What follows the player's turn prints at most one report, and none
    when the player's turn has returned [True] or [False]. *)
Lemma after_players_turn_stdout (lost : option bool) (w : World) :
  exists tail,
    stdout (snd (after_players_turn lost w)) = stdout w ++ tail /\
    (List.length (reports tail) <= 1)%nat /\
    (lost <> None -> tail = []).
Proof.
  rewrite after_players_turn_eq. destruct lost as [b|].
  - exists []. split; [now rewrite app_nil_r|]. split; [simpl; lia | reflexivity].
  - destruct (score (dealer w) =? 21).
    + eexists. split; [world_simpl; rewrite <- app_assoc; reflexivity|].
      split; [simpl; lia | congruence].
    + destruct (dealers_turn_stdout (dealers_fuel w) w) as (tail & Hout & Hrep).
      exists tail. split; [exact Hout|]. split; [exact Hrep | congruence].
Qed.

(** The two turns together: the console opens with the state and a prompt,
    and holds at most one report more than before. *)
Lemma turns_stdout (w : World) :
  exists tail,
    stdout (snd (bind (fun w => players_turn (players_fuel w) w)
                      after_players_turn w)) =
    stdout w ++ Display (dealer w) (player w) false :: Prompt :: tail /\
    (List.length (reports tail) <= 1)%nat.
Proof.
  rewrite turns_eq.
  destruct (players_turn_asks (List.length (stdin w)) w) as (t1 & H1).
  destruct (players_turn_stdout (players_fuel w) w) as (t0 & H0 & Hrep).
  fold (players_fuel w) in H1.
  assert (Ht : t0 = Display (dealer w) (player w) false :: Prompt :: t1).
  { rewrite H1 in H0. now apply app_inv_head in H0. }
  subst t0. cbn [reports filter is_report] in Hrep. fold (reports t1) in Hrep.
  destruct (players_turn (players_fuel w) w) as [[lost|e|] w'] eqn:E;
    cbn [fst snd] in *.
  - destruct (after_players_turn_stdout lost w') as (t2 & H2 & Hrep2 & Hnone).
    exists (t1 ++ t2). split.
    + rewrite H2, H1, <- app_assoc. reflexivity.
    + rewrite reports_app, length_app, Hrep.
      destruct lost as [[|]|].
      * rewrite (Hnone ltac:(discriminate)). simpl. lia.
      * rewrite (Hnone ltac:(discriminate)). simpl. lia.
      * simpl. lia.
  - exists t1. split; [exact H1 | rewrite Hrep; simpl; lia].
  - exists t1. split; [exact H1 | rewrite Hrep; simpl; lia].
Qed.

(** C6. The deal draws four cards, the first and third for the player and
    the second and fourth for the dealer.  With a player's score of 21 the
    game ends at once with "player wins": no further card is drawn, no line
    is read and no move is asked for.  Otherwise the game goes on with the
    player's turn, which opens by showing the state and prompting. *)
Theorem dealing_rule :
  forall (d : Deck) (lines : list string) (c1 c2 c3 c4 : Card) (rest : list Card),
    pile d = c1 :: c2 :: c3 :: c4 :: rest ->
    let w4 := dealt c1 c2 c3 c4 rest lines in
    draw_first_cards (boot {| is_shuffled := true; pile := pile d |} lines) =
      (Ret (score (player w4)), w4) /\
    cards (player w4) = [c1; c3] /\
    cards (dealer w4) = [c2; c4] /\
    pile (deck w4) = rest /\
    (score (player w4) = 21 ->
     play d lines = (Ret tt, report YouWon w4) /\
     pile (deck (report YouWon w4)) = rest /\
     stdin (report YouWon w4) = lines /\
     stdout (report YouWon w4) = [Display (dealer w4) (player w4) true; YouWon]) /\
    (score (player w4) <> 21 ->
     play d lines =
       bind (fun w => players_turn (players_fuel w) w) after_players_turn w4 /\
     exists tail,
       stdout (snd (play d lines)) =
       Display (dealer w4) (player w4) false :: Prompt :: tail).
Proof.
  intros d lines c1 c2 c3 c4 rest Hp w4.
  split; [|split; [|split; [|split; [|split]]]].
  - rewrite (draw_first_cards_dealt
               (boot {| is_shuffled := true; pile := pile d |} lines)
               c1 c2 c3 c4 rest Hp).
    reflexivity.
  - unfold w4, dealt. cbn [player].
    rewrite !(proj1 (add_card_score _ _)). reflexivity.
  - unfold w4, dealt. cbn [dealer].
    rewrite !(proj1 (add_card_score _ _)). reflexivity.
  - reflexivity.
  - intros H21. rewrite (play_deal d lines c1 c2 c3 c4 rest Hp). fold w4.
    rewrite H21. repeat split.
  - intros Hne. rewrite (play_deal d lines c1 c2 c3 c4 rest Hp). fold w4.
    destruct (Z.eqb_spec (score (player w4)) 21) as [E|_]; [contradiction|].
    split; [reflexivity|].
    destruct (turns_stdout w4) as (tail & Hout & _).
    exists tail. exact Hout.
Qed.

Lemma dealing_rule_witness :
  play {| is_shuffled := false; pile := map a_card ["ACE"; "5"; "KING"; "6"; "2"] |} ["H"] =
    (Ret tt,
     report YouWon
       (dealt (a_card "ACE") (a_card "5") (a_card "KING") (a_card "6") [a_card "2"] ["H"])) /\
  play {| is_shuffled := false; pile := map a_card ["9"; "5"; "KING"; "6"; "2"] |} ["S"] =
    bind (fun w => players_turn (players_fuel w) w) after_players_turn
      (dealt (a_card "9") (a_card "5") (a_card "KING") (a_card "6") [a_card "2"] ["S"]).
Proof.
  split.
  - refine (proj1 (proj1 (proj2 (proj2 (proj2 (proj2
              (dealing_rule {| is_shuffled := false;
                               pile := map a_card ["ACE"; "5"; "KING"; "6"; "2"] |}
                            ["H"] _ _ _ _ _ eq_refl))))) _)).
    reflexivity.
  - refine (proj1 (proj2 (proj2 (proj2 (proj2 (proj2
              (dealing_rule {| is_shuffled := false;
                               pile := map a_card ["9"; "5"; "KING"; "6"; "2"] |}
                            ["S"] _ _ _ _ _ eq_refl))))) _)).
    vm_compute. discriminate.
Defined.

(** A stand against a dealer at 21, from any world and with any fuel. *)
Lemma stand_dealer_21 (n : nat) (w w5 : World) :
  players_turn n w = (Ret None, w5) ->
  score (dealer w) = 21 ->
  bind (players_turn n) after_players_turn w = (Ret tt, report YouLost w5) /\
  dealer w5 = dealer w /\
  reports (stdout (report YouLost w5)) = reports (stdout w) ++ [YouLost].
Proof.
  intros Hturn H21.
  pose proof (players_turn_dealer n w) as Hd. rewrite Hturn in Hd. cbn [snd] in Hd.
  destruct (players_turn_stdout n w) as (tail & Hout & Hrep).
  rewrite Hturn in Hout, Hrep. cbn [fst snd] in Hout, Hrep.
  split; [|split].
  - unfold bind. rewrite Hturn, after_players_turn_eq, Hd, H21. reflexivity.
  - exact Hd.
  - world_simpl. rewrite Hout, !reports_app, Hrep.
    cbn [reports filter is_report]. now rewrite !app_nil_r.
Qed.

(** C7. When the player's turn ends on a stand and the dealer's score
    right after the deal is exactly 21, the game reports "player loses" and
    is over: the dealer's hand is still the two cards of the deal, the pile
    is as the player's turn left it, and this is the only report. *)
Theorem stand_against_dealt_21 :
  forall (d : Deck) (lines : list string) (c1 c2 c3 c4 : Card) (rest : list Card)
         (w5 : World),
    pile d = c1 :: c2 :: c3 :: c4 :: rest ->
    let w4 := dealt c1 c2 c3 c4 rest lines in
    score (player w4) <> 21 ->
    players_turn (players_fuel w4) w4 = (Ret None, w5) ->
    score (dealer w4) = 21 ->
    play d lines = (Ret tt, report YouLost w5) /\
    pile (deck (report YouLost w5)) = pile (deck w5) /\
    cards (dealer (report YouLost w5)) = [c2; c4] /\
    reports (stdout (report YouLost w5)) = [YouLost].
Proof.
  intros d lines c1 c2 c3 c4 rest w5 Hp w4 Hne Hturn H21.
  destruct (stand_dealer_21 _ _ _ Hturn H21) as (Hrun & Hd & Hrep).
  split; [|split; [|split]].
  - rewrite (play_deal d lines c1 c2 c3 c4 rest Hp). fold w4.
    destruct (Z.eqb_spec (score (player w4)) 21) as [E|_]; [contradiction|].
    exact Hrun.
  - reflexivity.
  - world_simpl. rewrite Hd. unfold w4, dealt. cbn [dealer].
    rewrite !(proj1 (add_card_score _ _)). reflexivity.
  - rewrite Hrep. reflexivity.
Qed.

Lemma stand_against_dealt_21_witness :
  play {| is_shuffled := true; pile := map a_card ["10"; "ACE"; "9"; "KING"; "2"] |}
       ["x"; "s"] =
  (Ret tt,
   report YouLost
     (asked ["x"] []
        (dealt (a_card "10") (a_card "ACE") (a_card "9") (a_card "KING")
               [a_card "2"] ["x"; "s"]))).
Proof.
  refine (proj1 (stand_against_dealt_21
                   {| is_shuffled := true;
                      pile := map a_card ["10"; "ACE"; "9"; "KING"; "2"] |}
                   ["x"; "s"] _ _ _ _ _ _ eq_refl _ eq_refl _)).
  - vm_compute. discriminate.
  - reflexivity.
Defined.

Lemma after_players_turn_probes (lost : option bool) (w : World) :
  probes (snd (after_players_turn lost w)) = probes w.
Proof.
  rewrite after_players_turn_eq. destruct lost as [b|]; [reflexivity|].
  destruct (score (dealer w) =? 21); [reflexivity|].
  apply dealers_turn_frame.
Qed.

Lemma probe_ok_not_entered (marks : list probe) :
  Forall probe_ok marks ->
  Forall (fun p => match p with Reach192 s => s <= 21 | Enter193 => False end) marks /\
  existsb is_enter193 marks = false.
Proof.
  induction 1 as [|p marks Hp _ [IH1 IH2]]; [split; [constructor | reflexivity]|].
  destruct p as [s|]; [|contradiction]. cbn in Hp.
  split; [constructor; [lia | exact IH1] | exact IH2].
Qed.

Lemma play_probes (d : Deck) (lines : list string) :
  Forall probe_ok (probes (snd (play d lines))).
Proof.
  destruct (play_cases d lines)
    as [(p & dl & rest & -> & _)|(c1 & c2 & c3 & c4 & rest & _ & ->)].
  - constructor.
  - destruct (score (player (dealt c1 c2 c3 c4 rest lines)) =? 21); [constructor|].
    rewrite turns_eq.
    destruct (players_turn_probes (players_fuel (dealt c1 c2 c3 c4 rest lines))
                                  (dealt c1 c2 c3 c4 rest lines))
      as (marks & Hp & Hok).
    destruct (players_turn _ _) as [[lost|e|] w'];
      cbn [fst snd] in *; try (rewrite Hp; exact Hok).
    rewrite after_players_turn_probes, Hp. exact Hok.
Qed.

(** C8. The body of [if self.player.score > 22] in [players_turn] is dead
    code: in every run of [players_turn], from any world, and in every
    game, each evaluation of that test reads a score of at most 21 (in
    fact below 21) and the body is never entered.  Seen from outside:
    [players_turn] returns [False] only at a score of exactly 21 and after
    the report "You won", never after the "You lost" of line 193. *)
Theorem line_193_is_dead :
  (forall (n : nat) (w : World),
      exists marks,
        probes (snd (players_turn n w)) = probes w ++ marks /\
        Forall probe_ok marks /\
        Forall (fun p => match p with Reach192 s => s <= 21 | Enter193 => False end)
               marks /\
        existsb is_enter193 marks = false) /\
  (forall (n : nat) (w : World),
      exists tail,
        stdout (snd (players_turn n w)) = stdout w ++ tail /\
        match fst (players_turn n w) with
        | Ret (Some false) =>
            reports tail = [YouWon] /\ score (player (snd (players_turn n w))) = 21
        | _ => True
        end) /\
  (forall (d : Deck) (lines : list string),
      Forall (fun p => match p with Reach192 s => s <= 21 | Enter193 => False end)
             (probes (snd (play d lines))) /\
      existsb is_enter193 (probes (snd (play d lines))) = false).
Proof.
  split.
  - intros n w. destruct (players_turn_probes n w) as (marks & Hp & Hok).
    exists marks. split; [exact Hp|]. split; [exact Hok|].
    now apply probe_ok_not_entered.
  - split.
    + intros n w. destruct (players_turn_stdout n w) as (tail & Hout & Hrep).
      pose proof (players_turn_final_score n w) as Hs.
      exists tail. split; [exact Hout|].
      destruct (fst (players_turn n w)) as [[[|]|]|e|]; auto.
    + intros d lines. apply probe_ok_not_entered, play_probes.
Qed.

End Game.

(** ** The score is never stale *)

Section Freshness.

Lemma fresh_add_card (h : Hand) (c : Card) : fresh (add_card h c).
Proof.
  unfold fresh. destruct (add_card_score h c) as [-> ->]. reflexivity.
Qed.

Lemma all_fresh_asked (pre rest : list string) (w : World) :
  all_fresh w -> all_fresh (asked pre rest w).
Proof.
  intros (Hp & Hd & Hout). repeat split; try assumption.
  world_simpl. apply Forall_app. split; [exact Hout|].
  unfold asking. constructor; [split; assumption|].
  apply Forall_app. split; [|repeat constructor].
  induction pre as [|y pre IH]; cbn [flat_map app]; repeat constructor.
  exact IH.
Qed.

Lemma all_fresh_hit_player (c : Card) (rest : list Card) (w : World) :
  all_fresh w -> all_fresh (hit_player c rest w).
Proof.
  intros (Hp & Hd & Hout). repeat split; try assumption.
  apply fresh_add_card.
Qed.

Lemma all_fresh_hit_dealer (c : Card) (rest : list Card) (w : World) :
  all_fresh w -> all_fresh (hit_dealer c rest w).
Proof.
  intros (Hp & Hd & Hout). repeat split; try assumption.
  apply fresh_add_card.
Qed.

Lemma all_fresh_report (e : event) (w : World) :
  is_report e = true -> all_fresh w -> all_fresh (report e w).
Proof.
  intros He (Hp & Hd & Hout). repeat split; try assumption.
  world_simpl. apply Forall_app. split.
  - apply Forall_app. split; [exact Hout|]. repeat constructor; assumption.
  - destruct e; try discriminate; repeat constructor.
Qed.

Lemma all_fresh_checked192 (w : World) : all_fresh w -> all_fresh (checked192 w).
Proof. intros H. exact H. Qed.

Lemma players_turn_fresh (n : nat) (w : World) :
  all_fresh w -> all_fresh (snd (players_turn n w)).
Proof.
  apply (players_turn_induction
           (fun w res => all_fresh w -> all_fresh (snd res)));
    clear n w; cbn [snd].
  - auto.
  - intros. now apply all_fresh_asked.
  - intros. now apply all_fresh_asked.
  - intros. now apply all_fresh_asked.
  - intros. now apply all_fresh_report, all_fresh_hit_player, all_fresh_asked.
  - intros. now apply all_fresh_report, all_fresh_hit_player, all_fresh_asked.
  - intros w pre rest c rest' res _ _ _ IH H. apply IH.
    now apply all_fresh_checked192, all_fresh_hit_player, all_fresh_asked.
Qed.

Lemma dealers_loop_fresh (n : nat) (w : World) :
  all_fresh w -> all_fresh (snd (dealers_loop n w)).
Proof.
  apply (dealers_loop_induction
           (fun w res => all_fresh w -> all_fresh (snd res)));
    clear n w; cbn [snd]; auto.
  - intros. now apply all_fresh_report, all_fresh_hit_dealer.
  - intros w c rest res _ _ _ IH H. apply IH. now apply all_fresh_hit_dealer.
Qed.

Lemma dealers_turn_fresh (n : nat) (w : World) :
  all_fresh w -> all_fresh (snd (dealers_turn n w)).
Proof.
  intros H. rewrite dealers_turn_by_loop.
  pose proof (dealers_loop_fresh n w H) as F.
  destruct (dealers_loop n w) as [[[|]|e|] w']; cbn [snd] in *; try exact F.
  destruct (score (dealer w') <? 21); [now apply all_fresh_report|].
  destruct (22 <? score (dealer w')); [now apply all_fresh_report | exact F].
Qed.

Lemma after_players_turn_fresh (lost : option bool) (w : World) :
  all_fresh w -> all_fresh (snd (after_players_turn lost w)).
Proof.
  intros H. rewrite after_players_turn_eq. destruct lost as [b|]; [exact H|].
  destruct (score (dealer w) =? 21); [now apply all_fresh_report|].
  now apply dealers_turn_fresh.
Qed.

Lemma all_fresh_dealt (c1 c2 c3 c4 : Card) (rest : list Card) (lines : list string) :
  all_fresh (dealt c1 c2 c3 c4 rest lines).
Proof. repeat split; try apply fresh_add_card. constructor. Qed.

Lemma play_fresh (d : Deck) (lines : list string) :
  all_fresh (snd (play d lines)).
Proof.
  destruct (play_cases d lines)
    as [(p & dl & rest & -> & Hp & Hd)|(c1 & c2 & c3 & c4 & rest & _ & ->)].
  - repeat split; try assumption. constructor.
  - pose proof (all_fresh_dealt c1 c2 c3 c4 rest lines) as H4.
    destruct (score (player (dealt c1 c2 c3 c4 rest lines)) =? 21);
      [now apply all_fresh_report|].
    rewrite turns_eq.
    pose proof (players_turn_fresh (players_fuel (dealt c1 c2 c3 c4 rest lines)) _ H4)
      as H5.
    destruct (players_turn _ _) as [[lost|e|] w']; cbn [snd] in *; try exact H5.
    now apply after_players_turn_fresh.
Qed.

(** C3. [add_card] appends the card and stores the scoring rule recomputed
    over the whole new card sequence, whatever the stored score was before;
    a new hand starts with the score of no cards; and throughout a game the
    stored score of either hand is the rule over its cards: in the world the
    game ends in and in every state that was shown on the way. *)
Theorem score_never_stale :
  (forall (h : Hand) (c : Card),
      cards (add_card h c) = cards h ++ [c] /\
      score (add_card h c) = hand_score (cards h ++ [c])) /\
  score Hand_init = hand_score (cards Hand_init) /\
  (forall (d : Deck) (lines : list string),
      score (player (snd (play d lines))) =
        hand_score (cards (player (snd (play d lines)))) /\
      score (dealer (snd (play d lines))) =
        hand_score (cards (dealer (snd (play d lines)))) /\
      Forall (fun e => match e with
                       | Display dl p _ =>
                           score dl = hand_score (cards dl) /\
                           score p = hand_score (cards p)
                       | _ => True
                       end)
             (stdout (snd (play d lines)))).
Proof.
  split; [exact add_card_score|]. split; [reflexivity|].
  intros d lines. exact (play_fresh d lines).
Qed.

End Freshness.

(** ** How many outcomes a game reports *)

Section Outcomes.

(** When the dealer's loop is left by its test and the dealer did not
    start at 21, the dealer is not at 21. *)
Lemma dealers_loop_exit_score (n : nat) (w : World) :
  score (dealer w) <> 21 ->
  fst (dealers_loop n w) = Ret false ->
  score (dealer (snd (dealers_loop n w))) <> 21.
Proof.
  apply (dealers_loop_induction
           (fun w res =>
              score (dealer w) <> 21 ->
              fst res = Ret false ->
              score (dealer (snd res)) <> 21));
    clear n w; cbn [fst snd]; try discriminate; auto.
Qed.

(** A dealer's turn that starts away from 21 and returns has reported once,
    unless the dealer stands at exactly 22: then it has reported nothing. *)
Lemma dealers_turn_reports (n : nat) (w : World) :
  score (dealer w) <> 21 ->
  fst (dealers_turn n w) = Ret tt ->
  exists tail,
    stdout (snd (dealers_turn n w)) = stdout w ++ tail /\
    ((List.length (reports tail) = 1)%nat \/
     (reports tail = [] /\ score (dealer (snd (dealers_turn n w))) = 22)).
Proof.
  intros Hne. rewrite dealers_turn_by_loop.
  destruct (dealers_loop_stdout n w) as (tail & Hout & Hrep).
  pose proof (dealers_loop_exit_score n w Hne) as Hexit.
  destruct (dealers_loop n w) as [[[|]|e|] w']; cbn [fst snd] in *;
    try discriminate.
  - intros _. exists tail. split; [exact Hout|]. left. now rewrite Hrep.
  - specialize (Hexit eq_refl).
    destruct (Z.ltb_spec (score (dealer w')) 21) as [Hlow|Hlow];
      [|destruct (Z.ltb_spec 22 (score (dealer w'))) as [Hhigh|Hhigh]]; intros _.
    + eexists. split; [world_simpl; rewrite Hout, <- !app_assoc; reflexivity|].
      left. now rewrite reports_app, Hrep.
    + eexists. split; [world_simpl; rewrite Hout, <- !app_assoc; reflexivity|].
      left. now rewrite reports_app, Hrep.
    + exists tail. split; [exact Hout|]. right. split; [exact Hrep | cbn [snd]; lia].
Qed.

(** The test [fuel] of the model never decides a game. *)
Lemma play_total (d : Deck) (lines : list string) :
  fst (play d lines) <> OutOfFuel.
Proof.
  destruct (play_cases d lines)
    as [(p & dl & rest & -> & _)|(c1 & c2 & c3 & c4 & rest & _ & ->)];
    [discriminate|].
  destruct (score (player (dealt c1 c2 c3 c4 rest lines)) =? 21); [discriminate|].
  rewrite turns_eq.
  pose proof (players_turn_total (players_fuel (dealt c1 c2 c3 c4 rest lines))
                                 (dealt c1 c2 c3 c4 rest lines)) as T.
  destruct (players_turn _ _) as [[lost|e|] w']; cbn [fst] in *;
    [|discriminate|unfold players_fuel in T; exfalso; apply T; [lia | reflexivity]].
  rewrite after_players_turn_eq. destruct lost as [b|]; [discriminate|].
  destruct (score (dealer w') =? 21); [discriminate|].
  apply dealers_turn_total. unfold dealers_fuel. lia.
Qed.

(** X9. No game reports more than one outcome: the console never holds
    two of "You won" and "You lost", however the game goes and also when it
    fails. *)
Lemma play_reports_at_most_once (d : Deck) (lines : list string) :
  (List.length (reports (stdout (snd (play d lines)))) <= 1)%nat.
Proof.
  destruct (play_cases d lines)
    as [(p & dl & rest & -> & _)|(c1 & c2 & c3 & c4 & rest & _ & ->)];
    [simpl; lia|].
  destruct (score (player (dealt c1 c2 c3 c4 rest lines)) =? 21); [simpl; lia|].
  destruct (turns_stdout (dealt c1 c2 c3 c4 rest lines)) as (tail & -> & Hrep).
  exact Hrep.
Qed.

(** X10. A game that returns has reported exactly one outcome, unless the
    dealer's turn left the dealer at exactly 22: then it has reported none. *)
Lemma play_reports_once_or_dealer_22 (d : Deck) (lines : list string) :
  fst (play d lines) = Ret tt ->
  (List.length (reports (stdout (snd (play d lines)))) = 1)%nat \/
  (reports (stdout (snd (play d lines))) = [] /\
   score (dealer (snd (play d lines))) = 22).
Proof.
  destruct (play_cases d lines)
    as [(p & dl & rest & -> & _)|(c1 & c2 & c3 & c4 & rest & _ & ->)];
    [discriminate|].
  set (w4 := dealt c1 c2 c3 c4 rest lines).
  destruct (score (player w4) =? 21); [intros _; now left|].
  rewrite turns_eq.
  destruct (players_turn_stdout (players_fuel w4) w4) as (t0 & H0 & Hrep0).
  destruct (players_turn (players_fuel w4) w4) as [[lost|e|] w5];
    cbn [fst snd] in *; try discriminate.
  change (stdout w4) with (@nil event) in H0. cbn [app] in H0.
  rewrite after_players_turn_eq. destruct lost as [[|]|]; cbn [fst snd].
  - intros _. left. now rewrite H0, Hrep0.
  - intros _. left. now rewrite H0, Hrep0.
  - destruct (Z.eqb_spec (score (dealer w5)) 21) as [E|Hne].
    + intros _. left. world_simpl. rewrite H0, !reports_app, Hrep0. reflexivity.
    + intros Hret.
      destruct (dealers_turn_reports (dealers_fuel w5) w5 Hne Hret)
        as (tail & Hout & [Hone|[Hnone H22]]).
      * left. now rewrite Hout, H0, reports_app, Hrep0.
      * right. split; [|exact H22]. now rewrite Hout, H0, reports_app, Hrep0, Hnone.
Qed.

Lemma play_reports_once_or_dealer_22_witness :
  (List.length
     (reports (stdout (snd (play {| is_shuffled := false;
                                    pile := map a_card ["10"; "10"; "9"; "6"; "5"] |}
                                 ["S"])))) = 1)%nat \/
  (reports (stdout (snd (play {| is_shuffled := false;
                                 pile := map a_card ["10"; "10"; "9"; "6"; "5"] |}
                              ["S"]))) = [] /\
   score (dealer (snd (play {| is_shuffled := false;
                               pile := map a_card ["10"; "10"; "9"; "6"; "5"] |}
                            ["S"]))) = 22).
Proof.
  apply (play_reports_once_or_dealer_22
           {| is_shuffled := false;
              pile := map a_card ["10"; "10"; "9"; "6"; "5"] |} ["S"]).
  reflexivity.
Defined.

(** C2, at a dealer who draws to exactly 22: the player (10 and 9) stands
    on 19, the dealer (10 and 6) draws a 6, the game returns, and the console
    holds neither "You won" nor "You lost". *)
Theorem dealer_22_reports_nothing :
  fst (play dealer_22_deck ["S"]) = Ret tt /\
  score (player (snd (play dealer_22_deck ["S"]))) = 19 /\
  score (dealer (snd (play dealer_22_deck ["S"]))) = 22 /\
  pile (deck (snd (play dealer_22_deck ["S"]))) = [] /\
  reports (stdout (snd (play dealer_22_deck ["S"]))) = [].
Proof. vm_compute. repeat split. Qed.

End Outcomes.

(** * Further properties of the code *)

(** ** The shape of a score *)

Section ScoreShape.

Lemma rank_points_bounds (r : string) : 0 <= rank_points r <= 10.
Proof.
  unfold rank_points.
  destruct (String.eqb r "JACK" || String.eqb r "QUEEN" || String.eqb r "KING");
    [lia|].
  destruct (String.eqb r "10"); [lia|].
  destruct r as [|d [|? ?]]; try lia.
  destruct (Z.leb_spec 2 (Z.of_nat (nat_of_ascii d) - 48));
    destruct (Z.leb_spec (Z.of_nat (nat_of_ascii d) - 48) 9); cbn [andb]; lia.
Qed.

Lemma rank_points_standard (r : string) :
  standard_rank r = true -> String.eqb r "ACE" = false -> 2 <= rank_points r.
Proof.
  unfold standard_rank. cbn [str_in]. intros Hs Ha. rewrite Ha in Hs.
  cbn [orb] in Hs.
  revert Hs.
  repeat match goal with
         | |- (String.eqb r ?k || _)%bool = true -> _ =>
             destruct (String.eqb_spec r k) as [E|_];
             [intros _; rewrite E; vm_compute; discriminate | cbn [orb]]
         end.
  discriminate.
Qed.

Lemma base_total_cons (c : Card) (cs : list Card) :
  base_total (c :: cs) =
  (if is_ace c then 0 else rank_points (value c)) + base_total cs.
Proof. unfold base_total. cbn [filter]. destruct (is_ace c); reflexivity. Qed.

(** The base lies between nothing and ten points a card. *)
Lemma base_total_bounds (cs : list Card) :
  0 <= base_total cs <=
  10 * Z.of_nat (List.length (filter (fun c => negb (is_ace c)) cs)).
Proof.
  induction cs as [|c cs IH]; [unfold base_total; simpl; lia|].
  rewrite base_total_cons. cbn [filter].
  pose proof (rank_points_bounds (value c)).
  destruct (is_ace c); cbn [negb List.length]; lia.
Qed.

Lemma base_total_standard (cs : list Card) :
  Forall (fun c => standard_rank (value c) = true) cs ->
  2 * Z.of_nat (List.length (filter (fun c => negb (is_ace c)) cs)) <= base_total cs.
Proof.
  induction 1 as [|c cs Hc _ IH]; [unfold base_total; simpl; lia|].
  rewrite base_total_cons. cbn [filter].
  destruct (is_ace c) eqn:E; cbn [negb List.length]; [lia|].
  pose proof (rank_points_standard _ Hc E). lia.
Qed.

Lemma filter_split_length (cs : list Card) :
  (List.length (filter is_ace cs) +
   List.length (filter (fun c => negb (is_ace c)) cs))%nat = List.length cs.
Proof.
  induction cs as [|c cs IH]; [reflexivity|].
  cbn [filter]. destruct (is_ace c); cbn [negb List.length]; lia.
Qed.

(** Above ten every Ace counts 1. *)
Lemma ace_loop_high (n : nat) (b : Z) :
  10 < b -> ace_loop n b = b + Z.of_nat n.
Proof.
  revert b. induction n as [|n IH]; intros b Hb; [cbn; lia|].
  cbn [ace_loop]. destruct (Z.ltb_spec 21 (b + 11)); [|lia].
  rewrite IH; lia.
Qed.

Lemma ace_loop_closed (n : nat) (b : Z) :
  0 <= b ->
  ace_loop n b =
  b + Z.of_nat n + (if (0 <? Z.of_nat n) && (b <=? 10) then 10 else 0).
Proof.
  intros Hb. destruct n as [|n]; [cbn; lia|].
  replace (0 <? Z.of_nat (S n)) with true by (symmetry; apply Z.ltb_lt; lia).
  cbn [andb ace_loop].
  destruct (Z.ltb_spec 21 (b + 11)), (Z.leb_spec b 10); try lia;
    rewrite ace_loop_high; lia.
Qed.

(** The score from the base and the number of Aces. *)
Lemma score_by_base (h : Hand) :
  score (calculate_hand_score h) =
  base_total (cards h) + Z.of_nat (List.length (filter is_ace (cards h))) +
  (if (0 <? Z.of_nat (List.length (filter is_ace (cards h))))
      && (base_total (cards h) <=? 10)
   then 10 else 0).
Proof.
  rewrite score_by_counts, count_aces_filter, sum_points_base.
  apply ace_loop_closed, base_total_bounds.
Qed.

(** X1. The score in closed form: the points of the non-Ace cards, one
    point an Ace, and ten more when there is an Ace and the non-Ace points are
    at most 10.  So at most one Ace is ever counted as 11, and only the
    non-Ace cards decide it. *)
Theorem score_closed_form :
  forall h : Hand,
    score (calculate_hand_score h) =
    base_total (cards h) + Z.of_nat (List.length (filter is_ace (cards h))) +
    (if (0 <? Z.of_nat (List.length (filter is_ace (cards h))))
        && (base_total (cards h) <=? 10)
     then 10 else 0).
Proof. exact score_by_base. Qed.

(** X2. The score of a hand is never negative and at most eleven points a
    card; a hand of cards of the thirteen ranks scores at least one point a
    card. *)
Theorem score_bounds :
  forall h : Hand,
    0 <= score (calculate_hand_score h) <= 11 * Z.of_nat (List.length (cards h)) /\
    (Forall (fun c => standard_rank (value c) = true) (cards h) ->
     Z.of_nat (List.length (cards h)) <= score (calculate_hand_score h)).
Proof.
  intros h. rewrite score_by_base.
  pose proof (base_total_bounds (cards h)) as Hb.
  pose proof (filter_split_length (cards h)) as Hl.
  split.
  - destruct (Z.ltb_spec 0 (Z.of_nat (List.length (filter is_ace (cards h)))));
      destruct (Z.leb_spec (base_total (cards h)) 10); cbn [andb]; lia.
  - intros Hs. pose proof (base_total_standard _ Hs).
    destruct ((0 <? _) && _); lia.
Qed.

Lemma score_bounds_witness :
  3 <= score (calculate_hand_score (hand_of ["ACE"; "KING"; "ACE"])).
Proof.
  apply (proj2 (score_bounds (hand_of ["ACE"; "KING"; "ACE"]))).
  repeat constructor.
Defined.

Lemma two_cards_score (c1 c2 : Card) :
  score (add_card (add_card Hand_init c1) c2) <= 21 /\
  (score (add_card (add_card Hand_init c1) c2) = 21 <->
   (value c1 = "ACE" /\ rank_points (value c2) = 10) \/
   (value c2 = "ACE" /\ rank_points (value c1) = 10)).
Proof.
  assert (E : score (add_card (add_card Hand_init c1) c2) =
              score (calculate_hand_score {| cards := [c1; c2]; score := 0 |})).
  { rewrite (proj2 (add_card_score _ _)), (proj1 (add_card_score _ _)).
    now rewrite calculate_hand_score_spec. }
  rewrite E, score_by_base. cbn [cards].
  rewrite !base_total_cons. cbn [filter]. unfold is_ace.
  pose proof (rank_points_bounds (value c1)) as B1.
  pose proof (rank_points_bounds (value c2)) as B2.
  change (base_total []) with 0.
  destruct (String.eqb_spec (value c1) "ACE") as [A1|A1];
    destruct (String.eqb_spec (value c2) "ACE") as [A2|A2]; cbn [List.length].
  - rewrite A1, A2. change (rank_points "ACE") with 0. cbn. split; [lia|].
    split; [lia | intros [[_ H]|[_ H]]; discriminate].
  - replace (0 + (rank_points (value c2) + 0) <=? 10) with true
      by (symmetry; apply Z.leb_le; lia).
    cbn. split; [lia|]. split.
    + intros H. left. split; [exact A1 | lia].
    + intros [[_ H]|[H _]]; [lia | contradiction].
  - replace (rank_points (value c1) + (0 + 0) <=? 10) with true
      by (symmetry; apply Z.leb_le; lia).
    cbn. split; [lia|]. split.
    + intros H. right. split; [exact A2 | lia].
    + intros [[H _]|[_ H]]; [contradiction | lia].
  - cbn. split; [lia|]. split; [lia | intros [[H _]|[H _]]; contradiction].
Qed.

(** X3. A hand of two cards never scores above 21, and it scores exactly
    21 just when one card is an Ace and the other is worth ten points. *)
Theorem two_cards_at_most_21 :
  forall c1 c2 : Card,
    score (add_card (add_card Hand_init c1) c2) <= 21 /\
    (score (add_card (add_card Hand_init c1) c2) = 21 <->
     (value c1 = "ACE" /\ rank_points (value c2) = 10) \/
     (value c2 = "ACE" /\ rank_points (value c1) = 10)).
Proof. exact two_cards_score. Qed.

Lemma two_cards_at_most_21_witness :
  score (add_card (add_card Hand_init (a_card "ACE")) (a_card "KING")) = 21.
Proof.
  apply (proj2 (proj2 (two_cards_at_most_21 (a_card "ACE") (a_card "KING")))).
  left. split; reflexivity.
Defined.

End ScoreShape.

(** ** More on the view *)

Section ViewEdges.

(** X4. Whatever is on the console input, [ask_next_move] hands back "H"
    or "S" or fails with [EOFError]; it reads a prefix of the input, at least
    one line unless it fails, reports no outcome, and leaves the hands, the
    deck and the ghost markers alone. *)
Theorem ask_next_move_outcomes :
  forall w : World,
    (fst (ask_next_move w) = Ret "H" \/
     fst (ask_next_move w) = Ret "S" \/
     fst (ask_next_move w) = Raise EOFError) /\
    player (snd (ask_next_move w)) = player w /\
    dealer (snd (ask_next_move w)) = dealer w /\
    deck (snd (ask_next_move w)) = deck w /\
    probes (snd (ask_next_move w)) = probes w /\
    reports (stdout (snd (ask_next_move w))) = reports (stdout w) /\
    exists used,
      stdin w = used ++ stdin (snd (ask_next_move w)) /\
      (fst (ask_next_move w) = Raise EOFError \/ (0 < List.length used)%nat).
Proof.
  intros w.
  destruct (first_move (stdin w)) as [(pre & x & rest & Hin & Hpre & Hx)|Hall].
  - rewrite (ask_next_move_accepts w pre x rest Hin Hpre Hx). cbn [fst snd].
    split; [destruct (upper_move x Hx) as [-> | ->]; auto|].
    repeat split.
    + world_simpl. now rewrite reports_app, reports_asking, app_nil_r.
    + exists (pre ++ [x]). world_simpl. split.
      * now rewrite Hin, <- app_assoc.
      * right. rewrite length_app. cbn. lia.
  - rewrite (ask_next_move_eof w Hall). cbn [fst snd].
    split; [auto|]. repeat split.
    + world_simpl. now rewrite reports_app, reports_asking, app_nil_r.
    + exists (stdin w). world_simpl. split; [now rewrite app_nil_r | now left].
Qed.

(** X5. When no line of the console input is "H" or "S" up to case (none
    of "H", "h", "S", "s" and the long s U+017F), also when there is no line
    at all, [ask_next_move] fails with [EOFError]: it
    has shown the state, prompted once for every line and once more, called
    every line invalid, read the input to its end and left the hands alone. *)
Theorem ask_next_move_no_move :
  forall w : World,
    Forall (fun s => is_move s = false) (stdin w) ->
    fst (ask_next_move w) = Raise EOFError /\
    stdin (snd (ask_next_move w)) = [] /\
    stdout (snd (ask_next_move w)) =
      stdout w ++ Display (dealer w) (player w) false
               :: flat_map (fun _ => [Prompt; InvalidCommand]) (stdin w) ++ [Prompt] /\
    player (snd (ask_next_move w)) = player w /\
    dealer (snd (ask_next_move w)) = dealer w.
Proof.
  intros w Hall. rewrite (ask_next_move_eof w Hall). repeat split.
Qed.

Lemma ask_next_move_no_move_witness :
  fst (ask_next_move (table ["10"; "9"] ["10"; "6"] ["5"] ["x"; "hit"; ""])) =
  Raise EOFError.
Proof.
  apply (ask_next_move_no_move (table ["10"; "9"] ["10"; "6"] ["5"] ["x"; "hit"; ""])).
  repeat constructor.
Defined.

(** X6. While the game is on, what [display_state] prepares for printing
    does not depend on the dealer's last card nor on the dealer's score: the
    score is shown as "??" and the last card as "??".  A dealer's hand of no
    card or of one card is shown as the one hidden card. *)
Theorem display_hides_last_card :
  (forall (cs : list Card) (c c' : Card) (s s' : Z) (p : Hand),
      display_fields {| cards := cs ++ [c]; score := s |} p false =
      display_fields {| cards := cs ++ [c']; score := s' |} p false) /\
  (forall (d p : Hand),
      dealer_score_shown (display_fields d p false) = inr "??" /\
      dealer_cards_shown (display_fields d p false) =
        inr (String.append "["
               (String.append
                  (join "," (map code (removelast (cards d)) ++ ["??"])) "]"))) /\
  (forall (c : Card) (s : Z) (p : Hand),
      dealer_cards_shown (display_fields {| cards := [c]; score := s |} p false) =
        inr "[??]" /\
      dealer_cards_shown (display_fields {| cards := []; score := s |} p false) =
        inr "[??]").
Proof.
  split; [|split].
  - intros cs c c' s s' p. unfold display_fields. cbn [cards negb score].
    now rewrite !removelast_last.
  - intros d p. split; reflexivity.
  - intros c s p. split; reflexivity.
Qed.

End ViewEdges.

(** ** Where the cards go, and how a turn can end *)

Section TurnEnds.

Lemma cards_add_card (h : Hand) (c : Card) : cards (add_card h c) = cards h ++ [c].
Proof. apply add_card_score. Qed.

(** The cards the player's turn takes off the pile are the cards it adds to
    the player's hand, in the order drawn. *)
Lemma players_turn_cards (n : nat) (w : World) :
  exists hits,
    pile (deck w) = hits ++ pile (deck (snd (players_turn n w))) /\
    cards (player (snd (players_turn n w))) = cards (player w) ++ hits /\
    is_shuffled (deck (snd (players_turn n w))) = is_shuffled (deck w).
Proof.
  apply (players_turn_induction
           (fun w res =>
              exists hits,
                pile (deck w) = hits ++ pile (deck (snd res)) /\
                cards (player (snd res)) = cards (player w) ++ hits /\
                is_shuffled (deck (snd res)) = is_shuffled (deck w)));
    clear n w;
    try (intros; exists []; world_simpl; now rewrite app_nil_r).
  - intros w pre rest c rest' _ Hp _. exists [c]. world_simpl.
    now rewrite Hp, cards_add_card.
  - intros w pre rest c rest' _ Hp _. exists [c]. world_simpl.
    now rewrite Hp, cards_add_card.
  - intros w pre rest c rest' res _ Hp _ (hits & Hpile & Hcards & Hsh).
    exists (c :: hits). revert Hpile Hcards Hsh. world_simpl.
    rewrite cards_add_card, Hp. intros -> -> ->.
    now rewrite <- app_assoc.
Qed.

(** The player's turn fails only for want of a line or of a card. *)
Lemma players_turn_raises (n : nat) (w : World) (e : exn) :
  fst (players_turn n w) = Raise e ->
  (e = EOFError /\ stdin (snd (players_turn n w)) = []) \/
  (e = IndexError /\ pile (deck (snd (players_turn n w))) = []).
Proof.
  apply (players_turn_induction
           (fun w res =>
              fst res = Raise e ->
              (e = EOFError /\ stdin (snd res) = []) \/
              (e = IndexError /\ pile (deck (snd res)) = [])));
    clear n w; cbn [fst snd]; try discriminate.
  - intros w [= <-]. now left.
  - intros w pre rest _ Hp [= <-]. right. now split.
  - intros w pre rest c rest' res _ _ _ IH. exact IH.
Qed.

(** A player below 21 who stands is still below 21, and was below 21 at
    every prompt. *)
Lemma players_turn_below_21 (n : nat) (w : World) :
  score (player w) < 21 ->
  (fst (players_turn n w) = Ret None ->
   score (player (snd (players_turn n w))) < 21) /\
  (Forall prompt_below_21 (stdout w) ->
   Forall prompt_below_21 (stdout (snd (players_turn n w)))).
Proof.
  assert (Hask : forall w pre rest,
             score (player w) < 21 ->
             Forall prompt_below_21 (stdout w) ->
             Forall prompt_below_21 (stdout (asked pre rest w))).
  { intros w0 pre rest Hs Hout. world_simpl. apply Forall_app. split; [exact Hout|].
    unfold asking. constructor; [exact Hs|].
    apply Forall_app. split; [|repeat constructor].
    induction pre as [|y pre IH]; cbn [flat_map app]; repeat constructor.
    exact IH. }
  assert (Hrep : forall e w,
             is_report e = true ->
             Forall prompt_below_21 (stdout w) ->
             Forall prompt_below_21 (stdout (report e w))).
  { intros e0 w0 He Hout. world_simpl. apply Forall_app. split.
    - apply Forall_app. split; [exact Hout | repeat constructor].
    - destruct e0; try discriminate; repeat constructor. }
  apply (players_turn_induction
           (fun w res =>
              score (player w) < 21 ->
              (fst res = Ret None -> score (player (snd res)) < 21) /\
              (Forall prompt_below_21 (stdout w) ->
               Forall prompt_below_21 (stdout (snd res)))));
    clear n w; cbn [fst snd].
  - intros w Hs. split; [discriminate | auto].
  - intros w Hs. split; [discriminate | now apply Hask].
  - intros w pre rest _ Hs. split; [intros _; exact Hs | now apply Hask].
  - intros w pre rest _ _ Hs. split; [discriminate | now apply Hask].
  - intros w pre rest c rest' _ _ _ Hs. split; [discriminate|].
    intros Hout. apply Hrep; [reflexivity|]. now apply (Hask w pre rest).
  - intros w pre rest c rest' _ _ _ Hs. split; [discriminate|].
    intros Hout. apply Hrep; [reflexivity|]. now apply (Hask w pre rest).
  - intros w pre rest c rest' res _ _ Hlt IH Hs.
    destruct (IH Hlt) as [IH1 IH2]. split; [exact IH1|].
    intros Hout. apply IH2. now apply (Hask w pre rest).
Qed.

(** The same for the dealer's loop: the cards drawn are the cards added. *)
Lemma dealers_loop_cards (n : nat) (w : World) :
  exists draws,
    pile (deck w) = draws ++ pile (deck (snd (dealers_loop n w))) /\
    cards (dealer (snd (dealers_loop n w))) = cards (dealer w) ++ draws /\
    is_shuffled (deck (snd (dealers_loop n w))) = is_shuffled (deck w) /\
    (score (dealer w) <= score (player w) ->
     fst (dealers_loop n w) = Ret true \/ fst (dealers_loop n w) = Ret false ->
     (0 < List.length draws)%nat).
Proof.
  apply (dealers_loop_induction
           (fun w res =>
              exists draws,
                pile (deck w) = draws ++ pile (deck (snd res)) /\
                cards (dealer (snd res)) = cards (dealer w) ++ draws /\
                is_shuffled (deck (snd res)) = is_shuffled (deck w) /\
                (score (dealer w) <= score (player w) ->
                 fst res = Ret true \/ fst res = Ret false ->
                 (0 < List.length draws)%nat)));
    clear n w; cbn [fst snd].
  - intros w. exists []. rewrite app_nil_r. repeat split.
    intros _ [H|H]; discriminate.
  - intros w Hgt. exists []. rewrite app_nil_r. repeat split. lia.
  - intros w _ _. exists []. rewrite app_nil_r. repeat split.
    intros _ [H|H]; discriminate.
  - intros w c rest _ Hp _. exists [c]. world_simpl.
    rewrite Hp, cards_add_card. repeat split. cbn. lia.
  - intros w c rest res _ Hp _ (draws & Hpile & Hcards & Hsh & _).
    exists (c :: draws). revert Hpile Hcards Hsh. world_simpl.
    rewrite cards_add_card, Hp. intros -> -> ->.
    rewrite <- app_assoc. repeat split. cbn. lia.
Qed.

(** How the dealer's loop can end: on a draw to 21, above the player, or for
    want of a card. *)
Lemma dealers_loop_end (n : nat) (w : World) :
  match fst (dealers_loop n w) with
  | Ret true => score (dealer (snd (dealers_loop n w))) = 21
  | Ret false =>
      score (player w) < score (dealer (snd (dealers_loop n w)))
  | Raise e => e = IndexError /\ pile (deck (snd (dealers_loop n w))) = []
  | OutOfFuel => True
  end.
Proof.
  apply (dealers_loop_induction
           (fun w res =>
              match fst res with
              | Ret true => score (dealer (snd res)) = 21
              | Ret false => score (player w) < score (dealer (snd res))
              | Raise e => e = IndexError /\ pile (deck (snd res)) = []
              | OutOfFuel => True
              end));
    clear n w; cbn [fst snd]; auto.
Qed.

End TurnEnds.

(** ** The dealer's turn as a whole *)

Section DealersEnd.

Lemma dealers_turn_cards (n : nat) (w : World) :
  exists draws,
    pile (deck w) = draws ++ pile (deck (snd (dealers_turn n w))) /\
    cards (dealer (snd (dealers_turn n w))) = cards (dealer w) ++ draws /\
    is_shuffled (deck (snd (dealers_turn n w))) = is_shuffled (deck w) /\
    (score (dealer w) <= score (player w) ->
     fst (dealers_turn n w) = Ret tt ->
     (0 < List.length draws)%nat).
Proof.
  rewrite dealers_turn_by_loop.
  destruct (dealers_loop_cards n w) as (draws & Hpile & Hcards & Hsh & Hpos).
  exists draws.
  destruct (dealers_loop n w) as [[[|]|e|] w']; cbn [fst snd] in *.
  - repeat split; auto.
  - destruct (score (dealer w') <? 21); [|destruct (22 <? score (dealer w'))];
      world_simpl; repeat split; auto.
  - repeat split; auto. discriminate.
  - repeat split; auto. discriminate.
Qed.

(** What the dealer's turn has reported when it is over, by the scores it
    leaves: a loss for the player at a dealer's 21 or at a dealer between
    the player and 21, a win above 22, nothing at 21 or 22 reached without a
    draw to 21, and nothing when it fails. *)
Lemma dealers_turn_outcome (n : nat) (w : World) :
  exists tail,
    stdout (snd (dealers_turn n w)) = stdout w ++ tail /\
    match fst (dealers_turn n w) with
    | Ret _ =>
        (reports tail = [YouLost] /\
         (score (dealer (snd (dealers_turn n w))) = 21 \/
          score (player w) < score (dealer (snd (dealers_turn n w))) < 21)) \/
        (reports tail = [YouWon] /\
         score (player w) < score (dealer (snd (dealers_turn n w))) /\
         22 < score (dealer (snd (dealers_turn n w)))) \/
        (reports tail = [] /\
         score (player w) < score (dealer (snd (dealers_turn n w))) /\
         21 <= score (dealer (snd (dealers_turn n w))) <= 22)
    | Raise e =>
        reports tail = [] /\ e = IndexError /\
        pile (deck (snd (dealers_turn n w))) = []
    | OutOfFuel => reports tail = []
    end.
Proof.
  rewrite dealers_turn_by_loop.
  destruct (dealers_loop_stdout n w) as (tail & Hout & Hrep).
  pose proof (dealers_loop_end n w) as Hend.
  destruct (dealers_loop n w) as [[[|]|e|] w']; cbn [fst snd] in *.
  - exists tail. split; [exact Hout|]. left. split; [exact Hrep | now left].
  - destruct (Z.ltb_spec (score (dealer w')) 21) as [Hlow|Hlow];
      [|destruct (Z.ltb_spec 22 (score (dealer w'))) as [Hhigh|Hhigh]];
      cbn [fst snd].
    + eexists. split; [world_simpl; rewrite Hout, <- !app_assoc; reflexivity|].
      left. rewrite reports_app, Hrep. split; [reflexivity|]. right.
      world_simpl. lia.
    + eexists. split; [world_simpl; rewrite Hout, <- !app_assoc; reflexivity|].
      right. left. rewrite reports_app, Hrep. split; [reflexivity|].
      world_simpl. lia.
    + exists tail. split; [exact Hout|]. right. right.
      split; [exact Hrep | lia].
  - exists tail. split; [exact Hout|]. destruct Hend as [-> Hp]. auto.
  - exists tail. split; [exact Hout | exact Hrep].
Qed.

Lemma dealers_turn_prompts (n : nat) (w : World) :
  Forall prompt_below_21 (stdout w) ->
  Forall prompt_below_21 (stdout (snd (dealers_turn n w))).
Proof.
  assert (Hrep : forall e w,
             is_report e = true ->
             Forall prompt_below_21 (stdout w) ->
             Forall prompt_below_21 (stdout (report e w))).
  { intros e0 w0 He Hout. world_simpl. apply Forall_app. split.
    - apply Forall_app. split; [exact Hout | repeat constructor].
    - destruct e0; try discriminate; repeat constructor. }
  intros H. rewrite dealers_turn_by_loop.
  assert (Hloop : Forall prompt_below_21 (stdout (snd (dealers_loop n w)))).
  { revert H.
    apply (dealers_loop_induction
             (fun w res =>
                Forall prompt_below_21 (stdout w) ->
                Forall prompt_below_21 (stdout (snd res))));
      cbn [snd]; auto. }
  destruct (dealers_loop n w) as [[[|]|e|] w']; cbn [snd] in *; auto.
  destruct (score (dealer w') <? 21); [now apply Hrep|].
  destruct (22 <? score (dealer w')); [now apply Hrep | exact Hloop].
Qed.

(** X14. When the dealer's turn is over, the dealer stands at exactly 21
    or above the player: the dealer never stops level with the player or
    below.  The player's hand is untouched, the cards the dealer drew are the
    cards taken off the pile, in order, at the end of the dealer's hand, and a
    dealer who started at or below the player has drawn at least one. *)
Theorem dealers_turn_end :
  forall (n : nat) (w : World),
    fst (dealers_turn n w) = Ret tt ->
    (score (dealer (snd (dealers_turn n w))) = 21 \/
     score (player w) < score (dealer (snd (dealers_turn n w)))) /\
    player (snd (dealers_turn n w)) = player w /\
    exists draws,
      pile (deck w) = draws ++ pile (deck (snd (dealers_turn n w))) /\
      cards (dealer (snd (dealers_turn n w))) = cards (dealer w) ++ draws /\
      (score (dealer w) <= score (player w) -> (0 < List.length draws)%nat).
Proof.
  intros n w Hret.
  destruct (dealers_turn_outcome n w) as (tail & _ & Hfit).
  destruct (dealers_turn_cards n w) as (draws & Hpile & Hcards & _ & Hpos).
  rewrite Hret in Hfit.
  split; [|split; [apply dealers_turn_frame|]].
  - destruct Hfit as [[_ [H|H]]|[[_ [H _]]|[_ [H _]]]]; auto; right; lia.
  - exists draws. repeat split; auto.
Qed.

Lemma dealers_turn_end_witness :
  score (dealer (snd (dealers_turn 3 (table ["10"; "9"] ["10"; "6"] ["3"; "4"; "5"] [])))) = 21 \/
  score (player (table ["10"; "9"] ["10"; "6"] ["3"; "4"; "5"] [])) <
  score (dealer (snd (dealers_turn 3 (table ["10"; "9"] ["10"; "6"] ["3"; "4"; "5"] [])))).
Proof.
  apply (dealers_turn_end 3 (table ["10"; "9"] ["10"; "6"] ["3"; "4"; "5"] [])).
  reflexivity.
Defined.

End DealersEnd.

(** ** How a game can end *)

Section GameEnds.

(** A game on fewer than four cards, in full. *)
Lemma play_short_world (d : Deck) (lines : list string) :
  (List.length (pile d) < 4)%nat ->
  exists p dl : Hand,
    play d lines =
      (Raise IndexError, mkWorld (mkDeck true []) lines p dl [] []) /\
    cards p = fst (alternate (pile d)) /\
    cards dl = snd (alternate (pile d)).
Proof.
  destruct d as [b [|c1 [|c2 [|c3 [|c4 rest]]]]]; cbn [pile List.length]; intros H;
    try lia; destruct b; do 2 eexists; (split; [reflexivity|]);
    unfold boot; world_simpl; rewrite ?cards_add_card; split; reflexivity.
Qed.

Lemma after_players_turn_cards (lost : option bool) (w : World) :
  exists draws,
    pile (deck w) = draws ++ pile (deck (snd (after_players_turn lost w))) /\
    cards (dealer (snd (after_players_turn lost w))) = cards (dealer w) ++ draws /\
    is_shuffled (deck (snd (after_players_turn lost w))) = is_shuffled (deck w) /\
    player (snd (after_players_turn lost w)) = player w.
Proof.
  rewrite after_players_turn_eq. destruct lost as [b|].
  - exists []. cbn [snd]. now rewrite app_nil_r.
  - destruct (score (dealer w) =? 21).
    + exists []. world_simpl. now rewrite app_nil_r.
    + destruct (dealers_turn_cards (dealers_fuel w) w) as (draws & H1 & H2 & H3 & _).
      exists draws. repeat split; auto. apply dealers_turn_frame.
Qed.

Lemma after_players_turn_prompts (lost : option bool) (w : World) :
  Forall prompt_below_21 (stdout w) ->
  Forall prompt_below_21 (stdout (snd (after_players_turn lost w))).
Proof.
  intros H. rewrite after_players_turn_eq. destruct lost as [b|]; [exact H|].
  destruct (score (dealer w) =? 21); [|now apply dealers_turn_prompts].
  world_simpl. apply Forall_app. split; [|repeat constructor].
  apply Forall_app. split; [exact H | repeat constructor].
Qed.

(** After a stand below 21: what is reported fits the scores, and a failure
    is a drawn-out pile with nothing reported. *)
Lemma after_stand_outcome (w : World) :
  score (player w) < 21 ->
  exists tail,
    stdout (snd (after_players_turn None w)) = stdout w ++ tail /\
    outcome_fits (reports tail) (score (player w))
                 (score (dealer (snd (after_players_turn None w)))) /\
    (forall e, fst (after_players_turn None w) = Raise e ->
               reports tail = [] /\ e = IndexError /\
               pile (deck (snd (after_players_turn None w))) = []).
Proof.
  intros Hp. rewrite after_players_turn_eq.
  destruct (Z.eqb_spec (score (dealer w)) 21) as [E|Hne].
  - eexists. split; [world_simpl; rewrite <- app_assoc; reflexivity|].
    split; [|discriminate].
    cbn. right. split; [exact Hp | now left].
  - destruct (dealers_turn_outcome (dealers_fuel w) w) as (tail & Hout & Hfit).
    exists tail. split; [exact Hout|].
    destruct (fst (dealers_turn (dealers_fuel w) w)) as [u|e|].
    + split; [|discriminate].
      destruct Hfit as [[-> H]|[[-> H]|[-> H]]]; cbn.
      * right. split; [exact Hp|]. destruct H as [H|H]; [now left | right; lia].
      * right. split; [exact Hp | lia].
      * exact I.
    + destruct Hfit as (Hrep & He & Hpile). rewrite Hrep.
      split; [exact I|]. intros e' [= <-]. auto.
    + rewrite Hfit. split; [exact I | discriminate].
Qed.

Lemma turns_cards (w : World) :
  exists hits draws,
    pile (deck w) = hits ++ draws ++ pile (deck (snd (both_turns w))) /\
    cards (player (snd (both_turns w))) = cards (player w) ++ hits /\
    cards (dealer (snd (both_turns w))) = cards (dealer w) ++ draws /\
    is_shuffled (deck (snd (both_turns w))) = is_shuffled (deck w).
Proof.
  unfold both_turns. rewrite turns_eq.
  destruct (players_turn_cards (players_fuel w) w) as (hits & Hpile & Hcards & Hsh).
  pose proof (players_turn_dealer (players_fuel w) w) as Hd.
  destruct (players_turn (players_fuel w) w) as [[lost|e|] w5]; cbn [snd] in *.
  - destruct (after_players_turn_cards lost w5) as (draws & H1 & H2 & H3 & H4).
    exists hits, draws. rewrite H2, H3, H4, Hd, Hcards, Hsh, Hpile, H1 at 1.
    repeat split.
  - exists hits, []. rewrite Hd, app_nil_r. cbn [app]. repeat split; assumption.
  - exists hits, []. rewrite Hd, app_nil_r. cbn [app]. repeat split; assumption.
Qed.

Lemma turns_prompts (w : World) :
  score (player w) < 21 ->
  Forall prompt_below_21 (stdout w) ->
  Forall prompt_below_21 (stdout (snd (both_turns w))).
Proof.
  intros Hp Hout. unfold both_turns. rewrite turns_eq.
  pose proof (proj2 (players_turn_below_21 (players_fuel w) w Hp) Hout) as H5.
  destruct (players_turn (players_fuel w) w) as [[lost|e|] w5]; cbn [snd] in *;
    try exact H5.
  now apply after_players_turn_prompts.
Qed.

Lemma turns_outcome (w : World) :
  score (player w) < 21 ->
  exists tail,
    stdout (snd (both_turns w)) = stdout w ++ tail /\
    outcome_fits (reports tail) (score (player (snd (both_turns w))))
                 (score (dealer (snd (both_turns w)))) /\
    (forall e, fst (both_turns w) = Raise e ->
               reports tail = [] /\
               ((e = EOFError /\ stdin (snd (both_turns w)) = []) \/
                (e = IndexError /\ pile (deck (snd (both_turns w))) = []))).
Proof.
  intros Hp. unfold both_turns. rewrite turns_eq.
  destruct (players_turn_stdout (players_fuel w) w) as (t0 & Hout0 & Hrep0).
  pose proof (players_turn_final_score (players_fuel w) w) as Hfin.
  pose proof (proj1 (players_turn_below_21 (players_fuel w) w Hp)) as Hstand.
  pose proof (players_turn_raises (players_fuel w) w) as Hraise.
  destruct (players_turn (players_fuel w) w) as [[[[|]|]|e|] w5];
    cbn [fst snd] in *.
  - exists t0. split; [exact Hout0|]. rewrite Hrep0.
    split; [cbn; now left | discriminate].
  - exists t0. split; [exact Hout0|]. rewrite Hrep0.
    split; [cbn; now left | discriminate].
  - specialize (Hstand eq_refl).
    destruct (after_stand_outcome w5 Hstand) as (t1 & Hout1 & Hfit & Hfail).
    destruct (after_players_turn_cards None w5) as (_ & _ & _ & _ & Hplayer).
    exists (t0 ++ t1). split; [now rewrite Hout1, Hout0, app_assoc|].
    rewrite reports_app, Hrep0, Hplayer. cbn [app]. split; [exact Hfit|].
    intros e He. destruct (Hfail e He) as (H1 & H2 & H3). auto.
  - exists t0. split; [exact Hout0|]. rewrite Hrep0. split; [exact I|].
    intros e' [= <-]. split; [reflexivity|]. now apply Hraise.
  - exists t0. split; [exact Hout0|]. rewrite Hrep0.
    split; [exact I | discriminate].
Qed.

Lemma dealt_below_21 (c1 c2 c3 c4 : Card) (rest : list Card) (lines : list string) :
  (score (player (dealt c1 c2 c3 c4 rest lines)) =? 21) = false ->
  score (player (dealt c1 c2 c3 c4 rest lines)) < 21.
Proof.
  intros H. apply Z.eqb_neq in H.
  pose proof (proj1 (two_cards_score c1 c3)) as Hle.
  unfold dealt in *. cbn [player] in *. lia.
Qed.

(** A game is short of cards or deals and goes on. *)
Lemma play_kinds (d : Deck) (lines : list string) :
  (List.length (pile d) < 4)%nat \/
  (exists (c1 c2 c3 c4 : Card) (rest : list Card),
      pile d = c1 :: c2 :: c3 :: c4 :: rest /\
      play d lines =
      if score (player (dealt c1 c2 c3 c4 rest lines)) =? 21
      then (Ret tt, report YouWon (dealt c1 c2 c3 c4 rest lines))
      else both_turns (dealt c1 c2 c3 c4 rest lines)).
Proof.
  destruct (Nat.lt_ge_cases (List.length (pile d)) 4) as [Hshort|Hlong];
    [now left | right].
  destruct (pile d) as [|c1 [|c2 [|c3 [|c4 rest]]]] eqn:E;
    cbn [List.length] in Hlong; try lia.
  exists c1, c2, c3, c4, rest. split; [reflexivity|].
  now apply play_deal.
Qed.

Lemma play_outcome_fits (d : Deck) (lines : list string) :
  outcome_fits (reports (stdout (snd (play d lines))))
               (score (player (snd (play d lines))))
               (score (dealer (snd (play d lines)))).
Proof.
  destruct (play_kinds d lines)
    as [Hshort|(c1 & c2 & c3 & c4 & rest & _ & ->)].
  { destruct (play_short_world d lines Hshort) as (p & dl & -> & _). exact I. }
  destruct (score (player (dealt c1 c2 c3 c4 rest lines)) =? 21) eqn:E.
  - apply Z.eqb_eq in E. cbn. now left.
  - destruct (turns_outcome _ (dealt_below_21 _ _ _ _ _ _ E)) as (tail & Hout & Hfit & _).
    rewrite Hout. exact Hfit.
Qed.

(** X7. On a pile of fewer than four cards the game fails in the deal with
    [IndexError]: the cards there were have gone to the player and the dealer
    in turn, the pile is empty, nothing was printed and no line was read. *)
Theorem play_on_short_pile :
  forall (d : Deck) (lines : list string),
    (List.length (pile d) < 4)%nat ->
    fst (play d lines) = Raise IndexError /\
    cards (player (snd (play d lines))) = fst (alternate (pile d)) /\
    cards (dealer (snd (play d lines))) = snd (alternate (pile d)) /\
    pile (deck (snd (play d lines))) = [] /\
    stdin (snd (play d lines)) = lines /\
    stdout (snd (play d lines)) = [].
Proof.
  intros d lines H.
  destruct (play_short_world d lines H) as (p & dl & -> & Hp & Hd).
  repeat split; assumption.
Qed.

Lemma play_on_short_pile_witness :
  fst (play {| is_shuffled := false; pile := map a_card ["10"; "ACE"; "9"] |} ["H"]) =
  Raise IndexError.
Proof.
  apply (play_on_short_pile
           {| is_shuffled := false; pile := map a_card ["10"; "ACE"; "9"] |} ["H"]).
  cbn. lia.
Defined.

(** X8. A game that fails has reported no outcome.  When the failure is
    the [EOFError] of [input], the console input has been read to its end;
    when it is the [IndexError] of [Deck.draw] on a drawn-out deck, the pile
    is empty. *)
Theorem play_failure :
  forall (d : Deck) (lines : list string) (e : exn),
    fst (play d lines) = Raise e ->
    reports (stdout (snd (play d lines))) = [] /\
    (e = EOFError -> stdin (snd (play d lines)) = []) /\
    (e = IndexError -> pile (deck (snd (play d lines))) = []).
Proof.
  intros d lines e.
  destruct (play_kinds d lines)
    as [Hshort|(c1 & c2 & c3 & c4 & rest & _ & ->)].
  - destruct (play_short_world d lines Hshort) as (p & dl & -> & _).
    intros [= <-]. split; [reflexivity|]. split; [discriminate | reflexivity].
  - destruct (score (player (dealt c1 c2 c3 c4 rest lines)) =? 21) eqn:E;
      [discriminate|].
    intros He.
    destruct (turns_outcome _ (dealt_below_21 _ _ _ _ _ _ E)) as (tail & Hout & _ & Hfail).
    destruct (Hfail e He) as (Hrep & Hsrc).
    split; [rewrite Hout; exact Hrep|].
    destruct Hsrc as [[-> Hs]|[-> Hs]]; split; intros; try discriminate; exact Hs.
Qed.

Lemma play_failure_witness :
  pile (deck (snd (play {| is_shuffled := true;
                           pile := map a_card ["10"; "5"; "2"; "6"] |}
                        ["H"]))) = [] /\
  stdin (snd (play {| is_shuffled := true;
                      pile := map a_card ["10"; "5"; "2"; "6"; "3"] |}
                   ["x"; "y"])) = [].
Proof.
  split.
  - apply (play_failure {| is_shuffled := true;
                           pile := map a_card ["10"; "5"; "2"; "6"] |}
                        ["H"] IndexError); reflexivity.
  - apply (play_failure {| is_shuffled := true;
                           pile := map a_card ["10"; "5"; "2"; "6"; "3"] |}
                        ["x"; "y"] EOFError); reflexivity.
Defined.

(** X11. A reported outcome fits the final scores.  "You won" is only
    reported to a player at exactly 21, or to a player below 21 against a
    dealer above 22.  "You lost" is only reported to a player above 21, or to
    a player below 21 against a dealer at exactly 21 or a dealer who is
    above the player and below 21. *)
Theorem outcome_sound :
  forall (d : Deck) (lines : list string),
    (reports (stdout (snd (play d lines))) = [YouWon] ->
     score (player (snd (play d lines))) = 21 \/
     (score (player (snd (play d lines))) < 21 /\
      22 < score (dealer (snd (play d lines))))) /\
    (reports (stdout (snd (play d lines))) = [YouLost] ->
     21 < score (player (snd (play d lines))) \/
     (score (player (snd (play d lines))) < 21 /\
      (score (dealer (snd (play d lines))) = 21 \/
       score (player (snd (play d lines))) < score (dealer (snd (play d lines))) < 21))).
Proof.
  intros d lines. pose proof (play_outcome_fits d lines) as H.
  split; intros E; rewrite E in H; exact H.
Qed.

Lemma outcome_sound_witness :
  (score (player (snd (play {| is_shuffled := true;
                               pile := map a_card ["10"; "10"; "9"; "6"; "8"] |}
                            ["S"]))) = 21 \/
   (score (player (snd (play {| is_shuffled := true;
                                pile := map a_card ["10"; "10"; "9"; "6"; "8"] |}
                             ["S"]))) < 21 /\
    22 < score (dealer (snd (play {| is_shuffled := true;
                                     pile := map a_card ["10"; "10"; "9"; "6"; "8"] |}
                                  ["S"]))))) /\
  (21 < score (player (snd (play {| is_shuffled := true;
                                    pile := map a_card ["10"; "10"; "9"; "6"; "5"] |}
                                 ["H"]))) \/
   (score (player (snd (play {| is_shuffled := true;
                                pile := map a_card ["10"; "10"; "9"; "6"; "5"] |}
                             ["H"]))) < 21 /\
    (score (dealer (snd (play {| is_shuffled := true;
                                 pile := map a_card ["10"; "10"; "9"; "6"; "5"] |}
                              ["H"]))) = 21 \/
     score (player (snd (play {| is_shuffled := true;
                                 pile := map a_card ["10"; "10"; "9"; "6"; "5"] |}
                              ["H"]))) <
     score (dealer (snd (play {| is_shuffled := true;
                                 pile := map a_card ["10"; "10"; "9"; "6"; "5"] |}
                              ["H"]))) < 21))).
Proof.
  split.
  - apply (proj1 (outcome_sound {| is_shuffled := true;
                                   pile := map a_card ["10"; "10"; "9"; "6"; "8"] |}
                                ["S"])).
    reflexivity.
  - apply (proj2 (outcome_sound {| is_shuffled := true;
                                   pile := map a_card ["10"; "10"; "9"; "6"; "5"] |}
                                ["H"])).
    reflexivity.
Defined.

(** X12. No card is lost and none appears from nowhere.  In a game on a
    pile of at least four cards, the player ends with the first and third
    card followed by the cards drawn on Hits, the dealer with the second and
    fourth card followed by the cards drawn in the dealer's turn; the Hits
    come off the pile first, then the dealer's draws, and what is left of the
    pile is what comes after them.  The deck ends marked as shuffled. *)
Theorem cards_accounted_for :
  forall (d : Deck) (lines : list string) (c1 c2 c3 c4 : Card) (rest : list Card),
    pile d = c1 :: c2 :: c3 :: c4 :: rest ->
    exists hits draws : list Card,
      rest = hits ++ draws ++ pile (deck (snd (play d lines))) /\
      cards (player (snd (play d lines))) = c1 :: c3 :: hits /\
      cards (dealer (snd (play d lines))) = c2 :: c4 :: draws /\
      is_shuffled (deck (snd (play d lines))) = true.
Proof.
  intros d lines c1 c2 c3 c4 rest Hp.
  rewrite (play_deal d lines c1 c2 c3 c4 rest Hp).
  assert (Hpl : cards (player (dealt c1 c2 c3 c4 rest lines)) = [c1; c3]).
  { unfold dealt. cbn [player]. now rewrite !cards_add_card. }
  assert (Hdl : cards (dealer (dealt c1 c2 c3 c4 rest lines)) = [c2; c4]).
  { unfold dealt. cbn [dealer]. now rewrite !cards_add_card. }
  destruct (score (player (dealt c1 c2 c3 c4 rest lines)) =? 21).
  - exists [], []. world_simpl. rewrite Hpl, Hdl. repeat split.
  - fold both_turns.
    destruct (turns_cards (dealt c1 c2 c3 c4 rest lines))
      as (hits & draws & Hpile & Hcp & Hcd & Hsh).
    exists hits, draws. rewrite Hcp, Hcd, Hsh, Hpl, Hdl.
    repeat split. exact Hpile.
Qed.

Lemma cards_accounted_for_witness :
  exists hits draws : list Card,
    [a_card "2"; a_card "7"; a_card "3"] =
      hits ++ draws ++
      pile (deck (snd (play {| is_shuffled := false;
                               pile := map a_card ["10"; "10"; "5"; "6"; "2"; "7"; "3"] |}
                            ["h"; "s"]))) /\
    cards (player (snd (play {| is_shuffled := false;
                                pile := map a_card ["10"; "10"; "5"; "6"; "2"; "7"; "3"] |}
                             ["h"; "s"]))) =
      a_card "10" :: a_card "5" :: hits /\
    cards (dealer (snd (play {| is_shuffled := false;
                                pile := map a_card ["10"; "10"; "5"; "6"; "2"; "7"; "3"] |}
                             ["h"; "s"]))) =
      a_card "10" :: a_card "6" :: draws /\
    is_shuffled (deck (snd (play {| is_shuffled := false;
                                    pile := map a_card ["10"; "10"; "5"; "6"; "2"; "7"; "3"] |}
                                 ["h"; "s"]))) = true.
Proof.
  apply (cards_accounted_for
           {| is_shuffled := false;
              pile := map a_card ["10"; "10"; "5"; "6"; "2"; "7"; "3"] |}
           ["h"; "s"]).
  reflexivity.
Defined.

(** X13. The player is never asked for a move at 21 or more: every state
    shown with the dealer's card hidden, in any game, has the player's score
    below 21. *)
Theorem never_asked_at_21 :
  forall (d : Deck) (lines : list string),
    Forall (fun e => match e with
                     | Display _ p false => score p < 21
                     | _ => True
                     end)
           (stdout (snd (play d lines))).
Proof.
  intros d lines. change (Forall prompt_below_21 (stdout (snd (play d lines)))).
  destruct (play_kinds d lines)
    as [Hshort|(c1 & c2 & c3 & c4 & rest & _ & ->)].
  { destruct (play_short_world d lines Hshort) as (p & dl & -> & _). constructor. }
  destruct (score (player (dealt c1 c2 c3 c4 rest lines)) =? 21) eqn:E.
  - repeat constructor.
  - apply turns_prompts; [now apply dealt_below_21 | constructor].
Qed.

End GameEnds.

(** ** The contract of the player's turn and of the input test *)

Section Contracts.

(** X15. What [players_turn] returns tells how it ended.  [True]: the
    player is above 21 and "You lost" was reported.  [False]: the player is
    at exactly 21 and "You won" was reported.  [None]: nothing was reported.
    A failure reports nothing; with the [EOFError] of [input] the console
    input has been read to its end, with the [IndexError] of a drawn-out deck
    the pile is empty.  In every case the dealer's hand is untouched and the
    cards added to the player's hand are the cards taken off the pile, in
    order. *)
Theorem players_turn_end :
  forall (n : nat) (w : World),
    dealer (snd (players_turn n w)) = dealer w /\
    (exists hits,
        pile (deck w) = hits ++ pile (deck (snd (players_turn n w))) /\
        cards (player (snd (players_turn n w))) = cards (player w) ++ hits) /\
    exists printed,
      stdout (snd (players_turn n w)) = stdout w ++ printed /\
      match fst (players_turn n w) with
      | Ret (Some true) =>
          reports printed = [YouLost] /\ 21 < score (player (snd (players_turn n w)))
      | Ret (Some false) =>
          reports printed = [YouWon] /\ score (player (snd (players_turn n w))) = 21
      | Ret None => reports printed = []
      | Raise e =>
          reports printed = [] /\
          (e = EOFError -> stdin (snd (players_turn n w)) = []) /\
          (e = IndexError -> pile (deck (snd (players_turn n w))) = [])
      | OutOfFuel => reports printed = []
      end.
Proof.
  intros n w.
  split; [apply players_turn_dealer|]. split.
  - destruct (players_turn_cards n w) as (hits & H1 & H2 & _). now exists hits.
  - destruct (players_turn_stdout n w) as (tail & Hout & Hrep).
    pose proof (players_turn_final_score n w) as Hfin.
    pose proof (players_turn_raises n w) as Hraise.
    exists tail. split; [exact Hout|].
    destruct (fst (players_turn n w)) as [[[|]|]|e|]; auto.
    split; [exact Hrep|].
    destruct (Hraise e eq_refl) as [[-> Hs]|[-> Hs]];
      split; intros; try discriminate; exact Hs.
Qed.

(** X16. The test [action.upper() in ["H", "S"]] accepts exactly five
    lines: "H", "h", "S", "s" and the single character U+017F (long s), whose
    upper-case form is "S".  Nothing is trimmed, so the empty line and a move
    with a blank before or after it are rejected. *)
Theorem accepted_lines :
  forall s : string,
    str_in (upper s) ["H"; "S"] = true <->
    s = "H" \/ s = "h" \/ s = "S" \/ s = "s" \/ s = long_s.
Proof.
  intros s. rewrite is_move_upper. unfold is_move. cbn [str_in].
  destruct (String.eqb_spec s "H") as [->|N1]; [cbn; tauto|].
  destruct (String.eqb_spec s "h") as [->|N2]; [cbn; tauto|].
  destruct (String.eqb_spec s "S") as [->|N3]; [cbn; tauto|].
  destruct (String.eqb_spec s "s") as [->|N4]; [cbn; tauto|].
  destruct (String.eqb_spec s long_s) as [->|N5]; [cbn; tauto|].
  cbn. split; [discriminate | tauto].
Qed.

Lemma accepted_lines_witness :
  str_in (upper "s") ["H"; "S"] = true /\
  str_in (upper long_s) ["H"; "S"] = true /\
  str_in (upper " H") ["H"; "S"] = false.
Proof.
  split; [|split].
  - apply (proj2 (accepted_lines "s")). tauto.
  - apply (proj2 (accepted_lines long_s)). tauto.
  - destruct (str_in (upper " H") ["H"; "S"]) eqn:E; [|reflexivity].
    apply (proj1 (accepted_lines " H")) in E.
    destruct E as [E|[E|[E|[E|E]]]]; discriminate.
Defined.

End Contracts.
